(** * AdvNetworkingBenchDocaRxOp: the DOCA receive-side batching operator

    A shallow embedding of
    [applications/adv_networking_bench/cpp/doca_bench_op_rx.h]
    (class [holoscan::ops::AdvNetworkingBenchDocaRxOp]) and the properties
    of its batching pipeline.

    The operator state is a record whose fields carry the names of the C++
    members.  The CUDA runtime and the logger are external: every call the
    operator makes to them is appended to the ghost field [calls], and the
    two calls whose result the operator branches on ([cudaEventQuery] and
    [cudaGetLastError]) take their answer from an environment [Env], indexed
    by the ghost counter [clock] (the number of answers consumed so far).
    All results below hold for every such environment. *)

From Stdlib Require Import ZArith Lia String List.
From stdpp Require Import base list.

Local Open Scope Z_scope.

(** ** CUDA handles and status codes *)

Inductive cudaError_t : Type :=
| cudaSuccess
| cudaErrorNotReady
| cudaErrorOther (code : Z).

Inductive cudaStream_t : Type :=
| Stream (n : Z).

(** [cudaEvent_t] is a pointer type: [NullEvent] is the value of a
    value-initialised handle, [Event n] and [EventStart n] the handles that
    [initialize] creates for [events_[n]] and [events_start_[n]]. *)
Inductive cudaEvent_t : Type :=
| NullEvent
| Event (n : Z)
| EventStart (n : Z).

Definition is_cudaSuccess (r : cudaError_t) : bool :=
  match r with cudaSuccess => true | _ => false end.

(** ** Bursts *)

(** Modelled from the spec: the burst type [AdvNetBurstParams] and its
    accessors [adv_net_get_q_id], [adv_net_get_num_pkts],
    [adv_net_get_burst_tot_byte] and [adv_net_get_pkt_ptr] are declared in
    [adv_network_rx.h], which is not part of the sources at hand.  Following
    section 6 of the specification a burst has a queue id, a packet count, a
    total byte count and a per-index packet pointer accessor.  Addresses are
    integers. *)
Record AdvNetBurstParams : Type := {
  hdr_q_id : Z;
  hdr_num_pkts : Z;
  hdr_tot_byte : Z;
  pkts : Z -> Z
}.

Definition adv_net_get_q_id (burst : AdvNetBurstParams) : Z := hdr_q_id burst.
Definition adv_net_get_num_pkts (burst : AdvNetBurstParams) : Z := hdr_num_pkts burst.
Definition adv_net_get_burst_tot_byte (burst : AdvNetBurstParams) : Z := hdr_tot_byte burst.
Definition adv_net_get_pkt_ptr (burst : AdvNetBurstParams) (idx : Z) : Z := pkts burst idx.

(** ** Constants and fixed-width arithmetic *)

Definition num_concurrent : Z := 4.
Definition MAX_ANO_BURSTS : Z := 10.

(** [int64_t] addition as two's complement wrap-around. *)
Definition wrap64 (z : Z) : Z := (z + 2 ^ 63) mod 2 ^ 64 - 2 ^ 63.
Definition wrap_u16 (z : Z) : Z := z mod 2 ^ 16.
Definition wrap_u32 (z : Z) : Z := z mod 2 ^ 32.

(** ** In-flight batch records *)

Record BatchAggregationParams : Type := {
  bursts : list (option AdvNetBurstParams);
  num_bursts : Z;
  evt : cudaEvent_t
}.

(** [BatchAggregationParams cur_batch_{}]: value initialisation. *)
Definition BatchAggregationParams_default : BatchAggregationParams :=
  {| bursts := replicate (Z.to_nat MAX_ANO_BURSTS) None;
     num_bursts := 0;
     evt := NullEvent |}.

Definition with_evt (b : BatchAggregationParams) (e : cudaEvent_t) : BatchAggregationParams :=
  {| bursts := bursts b; num_bursts := num_bursts b; evt := e |}.

Definition with_num_bursts (b : BatchAggregationParams) (n : Z) : BatchAggregationParams :=
  {| bursts := bursts b; num_bursts := n; evt := evt b |}.

(** ** External calls *)

(** The calls the operator makes to the CUDA runtime, to the reorder kernel
    wrapper, to the logger and to [exit].  [simple_packet_reorder] receives
    the device buffer of a slot and a pinned pointer table; the table
    argument carries the slot index together with the contents the table
    has at the time of the call ([None] for a [NULL] argument). *)
Inductive Call : Type :=
| HOLOSCAN_LOG_ERROR (msg : string) (args : list Z)
| HOLOSCAN_LOG_INFO (msg : string) (args : list Z)
| cudaMallocHost (slot : Z) (n_ptrs : Z)
| cudaStreamCreateWithFlags (s : cudaStream_t)
| cudaMallocAsync (slot : Z) (size : Z) (s : cudaStream_t)
| cudaEventCreate (e : cudaEvent_t)
| cudaStreamSynchronize (s : cudaStream_t)
| cudaEventRecord (e : cudaEvent_t) (s : cudaStream_t)
| cudaEventSynchronize (e : cudaEvent_t)
| cudaEventElapsedTime (e_start e_end : cudaEvent_t)
| cudaEventQuery (e : cudaEvent_t) (r : cudaError_t)
| cudaGetLastError (r : cudaError_t)
| simple_packet_reorder (out : option Z) (in_ : option (Z * list Z))
                        (pkt_len : Z) (num_pkts : Z) (s : cudaStream_t)
| exit (code : Z).

(** The environment of the operator.  [DEBUG_CUDA_TIMES] is a preprocessor
    symbol that the header tests and does not define.  The two oracles give
    the status a CUDA call returns; their first argument is the number of
    answers taken from the environment before that call. *)
Record Env : Type := {
  DEBUG_CUDA_TIMES : Z;
  event_status : nat -> cudaEvent_t -> cudaError_t;
  last_error : nat -> cudaError_t
}.

(** ** Operator state *)

Record Op : Type := {
  cur_batch_ : BatchAggregationParams;
  cur_batch_idx_ : Z;
  batch_q_ : list BatchAggregationParams;
  ttl_bytes_recv_ : Z;
  ttl_pkts_recv_ : Z;
  aggr_pkts_recv_ : Z;
  nom_payload_size_ : Z;
  h_dev_ptrs_ : list (list Z);
  batch_size_ : Z;
  max_packet_size_ : Z;
  header_size_ : Z;
  calls : list Call;
  clock : nat
}.

Definition streams_ (n : Z) : cudaStream_t := Stream n.
Definition events_ (n : Z) : cudaEvent_t := Event n.
Definition events_start_ (n : Z) : cudaEvent_t := EventStart n.
Definition full_batch_data_d_ (n : Z) : option Z := Some n.

Definition set_cur_batch_ (w : Op) (b : BatchAggregationParams) : Op :=
  {| cur_batch_ := b; cur_batch_idx_ := cur_batch_idx_ w; batch_q_ := batch_q_ w;
     ttl_bytes_recv_ := ttl_bytes_recv_ w; ttl_pkts_recv_ := ttl_pkts_recv_ w;
     aggr_pkts_recv_ := aggr_pkts_recv_ w; nom_payload_size_ := nom_payload_size_ w;
     h_dev_ptrs_ := h_dev_ptrs_ w; batch_size_ := batch_size_ w;
     max_packet_size_ := max_packet_size_ w; header_size_ := header_size_ w;
     calls := calls w; clock := clock w |}.

Definition set_cur_batch_idx_ (w : Op) (i : Z) : Op :=
  {| cur_batch_ := cur_batch_ w; cur_batch_idx_ := i; batch_q_ := batch_q_ w;
     ttl_bytes_recv_ := ttl_bytes_recv_ w; ttl_pkts_recv_ := ttl_pkts_recv_ w;
     aggr_pkts_recv_ := aggr_pkts_recv_ w; nom_payload_size_ := nom_payload_size_ w;
     h_dev_ptrs_ := h_dev_ptrs_ w; batch_size_ := batch_size_ w;
     max_packet_size_ := max_packet_size_ w; header_size_ := header_size_ w;
     calls := calls w; clock := clock w |}.

Definition set_batch_q_ (w : Op) (q : list BatchAggregationParams) : Op :=
  {| cur_batch_ := cur_batch_ w; cur_batch_idx_ := cur_batch_idx_ w; batch_q_ := q;
     ttl_bytes_recv_ := ttl_bytes_recv_ w; ttl_pkts_recv_ := ttl_pkts_recv_ w;
     aggr_pkts_recv_ := aggr_pkts_recv_ w; nom_payload_size_ := nom_payload_size_ w;
     h_dev_ptrs_ := h_dev_ptrs_ w; batch_size_ := batch_size_ w;
     max_packet_size_ := max_packet_size_ w; header_size_ := header_size_ w;
     calls := calls w; clock := clock w |}.

Definition set_ttl_bytes_recv_ (w : Op) (n : Z) : Op :=
  {| cur_batch_ := cur_batch_ w; cur_batch_idx_ := cur_batch_idx_ w; batch_q_ := batch_q_ w;
     ttl_bytes_recv_ := n; ttl_pkts_recv_ := ttl_pkts_recv_ w;
     aggr_pkts_recv_ := aggr_pkts_recv_ w; nom_payload_size_ := nom_payload_size_ w;
     h_dev_ptrs_ := h_dev_ptrs_ w; batch_size_ := batch_size_ w;
     max_packet_size_ := max_packet_size_ w; header_size_ := header_size_ w;
     calls := calls w; clock := clock w |}.

Definition set_ttl_pkts_recv_ (w : Op) (n : Z) : Op :=
  {| cur_batch_ := cur_batch_ w; cur_batch_idx_ := cur_batch_idx_ w; batch_q_ := batch_q_ w;
     ttl_bytes_recv_ := ttl_bytes_recv_ w; ttl_pkts_recv_ := n;
     aggr_pkts_recv_ := aggr_pkts_recv_ w; nom_payload_size_ := nom_payload_size_ w;
     h_dev_ptrs_ := h_dev_ptrs_ w; batch_size_ := batch_size_ w;
     max_packet_size_ := max_packet_size_ w; header_size_ := header_size_ w;
     calls := calls w; clock := clock w |}.

Definition set_aggr_pkts_recv_ (w : Op) (n : Z) : Op :=
  {| cur_batch_ := cur_batch_ w; cur_batch_idx_ := cur_batch_idx_ w; batch_q_ := batch_q_ w;
     ttl_bytes_recv_ := ttl_bytes_recv_ w; ttl_pkts_recv_ := ttl_pkts_recv_ w;
     aggr_pkts_recv_ := n; nom_payload_size_ := nom_payload_size_ w;
     h_dev_ptrs_ := h_dev_ptrs_ w; batch_size_ := batch_size_ w;
     max_packet_size_ := max_packet_size_ w; header_size_ := header_size_ w;
     calls := calls w; clock := clock w |}.

Definition set_h_dev_ptrs_ (w : Op) (t : list (list Z)) : Op :=
  {| cur_batch_ := cur_batch_ w; cur_batch_idx_ := cur_batch_idx_ w; batch_q_ := batch_q_ w;
     ttl_bytes_recv_ := ttl_bytes_recv_ w; ttl_pkts_recv_ := ttl_pkts_recv_ w;
     aggr_pkts_recv_ := aggr_pkts_recv_ w; nom_payload_size_ := nom_payload_size_ w;
     h_dev_ptrs_ := t; batch_size_ := batch_size_ w;
     max_packet_size_ := max_packet_size_ w; header_size_ := header_size_ w;
     calls := calls w; clock := clock w |}.

(** Appending to the ghost log of external calls, and consuming answers of
    the environment. *)
Definition emit (w : Op) (cs : list Call) : Op :=
  {| cur_batch_ := cur_batch_ w; cur_batch_idx_ := cur_batch_idx_ w; batch_q_ := batch_q_ w;
     ttl_bytes_recv_ := ttl_bytes_recv_ w; ttl_pkts_recv_ := ttl_pkts_recv_ w;
     aggr_pkts_recv_ := aggr_pkts_recv_ w; nom_payload_size_ := nom_payload_size_ w;
     h_dev_ptrs_ := h_dev_ptrs_ w; batch_size_ := batch_size_ w;
     max_packet_size_ := max_packet_size_ w; header_size_ := header_size_ w;
     calls := calls w ++ cs; clock := clock w |}.

Definition set_clock (w : Op) (n : nat) : Op :=
  {| cur_batch_ := cur_batch_ w; cur_batch_idx_ := cur_batch_idx_ w; batch_q_ := batch_q_ w;
     ttl_bytes_recv_ := ttl_bytes_recv_ w; ttl_pkts_recv_ := ttl_pkts_recv_ w;
     aggr_pkts_recv_ := aggr_pkts_recv_ w; nom_payload_size_ := nom_payload_size_ w;
     h_dev_ptrs_ := h_dev_ptrs_ w; batch_size_ := batch_size_ w;
     max_packet_size_ := max_packet_size_ w; header_size_ := header_size_ w;
     calls := calls w; clock := n |}.

(** ** [initialize] *)

(** One round of the allocation loop of [initialize] (slot [n]). *)
Definition initialize_slot (batch_size nom_payload_size n : Z) : list Call :=
  [ cudaMallocHost n batch_size;
    cudaStreamCreateWithFlags (streams_ n);
    cudaMallocAsync n (wrap_u32 (batch_size * nom_payload_size)) (streams_ n);
    cudaEventCreate (events_ n);
    cudaEventCreate (events_start_ n);
    simple_packet_reorder None None 1 1 (streams_ n);
    cudaStreamSynchronize (streams_ n) ].

Definition initialize_msg : string := "AdvNetworkingBenchDocaRxOp::initialize()".
Definition initialize_base_msg : string := "holoscan::Operator::initialize() complete".
Definition initialize_done_msg : string :=
  "AdvNetworkingBenchDocaRxOp::initialize() complete".

(** The operator after construction, [setup] with the three parameters and
    [initialize].  Pinned memory is not initialised by the allocator; the
    model fills the tables with the null address.  The results of the
    allocation calls are not checked by the source. *)
Definition initialize (batch_size max_packet_size header_size : Z) : Op :=
  let nom := wrap_u16 (max_packet_size - header_size) in
  {| cur_batch_ := BatchAggregationParams_default;
     cur_batch_idx_ := 0;
     batch_q_ := [];
     ttl_bytes_recv_ := 0;
     ttl_pkts_recv_ := 0;
     aggr_pkts_recv_ := 0;
     nom_payload_size_ := nom;
     h_dev_ptrs_ := replicate (Z.to_nat num_concurrent)
                              (replicate (Z.to_nat batch_size) 0);
     batch_size_ := batch_size;
     max_packet_size_ := max_packet_size;
     header_size_ := header_size;
     calls := [HOLOSCAN_LOG_INFO initialize_msg [];
               HOLOSCAN_LOG_INFO initialize_base_msg []]
              ++ concat (map (fun n => initialize_slot batch_size nom (Z.of_nat n))
                             (seq 0 (Z.to_nat num_concurrent)))
              ++ [HOLOSCAN_LOG_INFO initialize_done_msg []];
     clock := O |}.

(** ** [free_batch_queue] *)

(** The [while] loop of [free_batch_queue] over the queue, front first.  It
    returns the remaining queue, the calls made and the new clock. *)
Fixpoint free_batch_queue_loop (E : Env) (q : list BatchAggregationParams) (clk : nat)
  : list BatchAggregationParams * list Call * nat :=
  match q with
  | [] => ([], [], clk)
  | batch :: rest =>
      let r := event_status E clk (evt batch) in
      if is_cudaSuccess r then
        let '(q', cs, clk') := free_batch_queue_loop E rest (S clk) in
        (q', cudaEventQuery (evt batch) r :: cs, clk')
      else
        (q, [cudaEventQuery (evt batch) r], S clk)
  end.

Definition free_batch_queue (E : Env) (w : Op) : Op :=
  let '(q', cs, clk') := free_batch_queue_loop E (batch_q_ w) (clock w) in
  set_clock (emit (set_batch_q_ w q') cs) clk'.

(** ** [compute] *)

Definition fell_behind_msg : string := "Fell behind in processing on GPU!".
Definition no_burst_msg : string := "No burst input".
Definition cuda_error_msg : string :=
  "CUDA error with {} packets in batch and {} bytes total".
Definition debug_times_msg : string := "aggr_pkts_recv_ {} et_ms {}".

(** How one round of the packet loop leaves: it falls through to the next
    round, executes [return], or calls [exit]. *)
Inductive Ctl : Type :=
| Next
| Return
| Exit (code : Z).

(** The pinned table of a slot, and the store [h_dev_ptrs_[slot][idx] = p].
    An index outside the table is undefined behaviour in the source; the
    model leaves the tables unchanged there. *)
Definition table_of (t : list (list Z)) (slot : Z) : list Z :=
  if 0 <=? slot then default [] (t !! Z.to_nat slot) else [].

Definition store_ptr (t : list (list Z)) (slot idx p : Z) : list (list Z) :=
  if (0 <=? slot) && (0 <=? idx) then
    <[Z.to_nat slot := <[Z.to_nat idx := p]> (table_of t slot)]> t
  else t.

(** Lines 141-156: the kernel launch on the current slot, with the calls
    that [DEBUG_CUDA_TIMES == 1] adds around it.  The elapsed time that the
    timing code logs is a float and is left out of the log entry. *)
Definition launch_kernel (E : Env) (w : Op) : Op :=
  let idx := cur_batch_idx_ w in
  let dbg := DEBUG_CUDA_TIMES E =? 1 in
  let w := if dbg then emit w [cudaEventRecord (events_start_ idx) (streams_ idx)] else w in
  let w := emit w [simple_packet_reorder
                     (full_batch_data_d_ idx)
                     (Some (idx, take (Z.to_nat (batch_size_ w)) (table_of (h_dev_ptrs_ w) idx)))
                     (nom_payload_size_ w)
                     (batch_size_ w)
                     (streams_ idx)] in
  if dbg then
    emit w [cudaEventRecord (events_ idx) (streams_ idx);
            cudaEventSynchronize (events_ idx);
            cudaEventElapsedTime (events_start_ idx) (events_ idx);
            HOLOSCAN_LOG_INFO debug_times_msg [aggr_pkts_recv_ w]]
  else w.

(** Lines 128-169: the body of [if (aggr_pkts_recv_ >= batch_size_.get())]. *)
Definition launch_batch (E : Env) (w : Op) : Op * Ctl :=
  let w := set_aggr_pkts_recv_ w 0 in
  let w := free_batch_queue E w in
  if Z.of_nat (length (batch_q_ w)) =? num_concurrent then
    (emit w [HOLOSCAN_LOG_ERROR fell_behind_msg []], Return)
  else
    let w := launch_kernel E w in
    let w := set_cur_batch_ w (with_evt (cur_batch_ w) (events_ (cur_batch_idx_ w))) in
    let w := set_batch_q_ w (batch_q_ w ++ [cur_batch_ w]) in
    let w := set_cur_batch_ w (with_num_bursts (cur_batch_ w) 0) in
    let r := last_error E (clock w) in
    let w := set_clock (emit w [cudaGetLastError r]) (S (clock w)) in
    if is_cudaSuccess r then
      (set_cur_batch_idx_ w (Z.rem (cur_batch_idx_ w + 1) num_concurrent), Next)
    else
      (emit w [HOLOSCAN_LOG_ERROR cuda_error_msg
                 [batch_size_ w; wrap_u32 (batch_size_ w * nom_payload_size_ w)];
               exit 1],
       Exit 1).

Definition launch_if_full (E : Env) (w : Op) : Op * Ctl :=
  if aggr_pkts_recv_ w >=? batch_size_ w then launch_batch E w else (w, Next).

(** Lines 171-172: the payload pointer of the packet goes into the table of
    the current slot at [aggr_pkts_recv_], which is then incremented. *)
Definition payload_ptr (w : Op) (burst : AdvNetBurstParams) (pkt_idx : Z) : Z :=
  adv_net_get_pkt_ptr burst pkt_idx + header_size_ w.

Definition store_pkt (w : Op) (p : Z) : Op :=
  let w' := set_h_dev_ptrs_ w
              (store_ptr (h_dev_ptrs_ w) (cur_batch_idx_ w) (aggr_pkts_recv_ w) p) in
  set_aggr_pkts_recv_ w' (wrap64 (aggr_pkts_recv_ w + 1)).

(** One round of the [for] loop over the packets of a burst. *)
Definition loop_body (E : Env) (w : Op) (burst : AdvNetBurstParams) (pkt_idx : Z) : Op * Ctl :=
  match launch_if_full E w with
  | (w1, Next) => (store_pkt w1 (payload_ptr w1 burst pkt_idx), Next)
  | r => r
  end.

(** [n] rounds of the loop, starting at index [pkt_idx].  [compute] runs
    it for [adv_net_get_num_pkts(burst)] rounds (none when that count is
    not positive); the index is an [int] in the source, which is enough for
    the burst sizes the network operator delivers. *)
Fixpoint pkt_loop (E : Env) (n : nat) (pkt_idx : Z) (burst : AdvNetBurstParams) (w : Op)
  : Op * Ctl :=
  match n with
  | O => (w, Next)
  | S n' =>
      match loop_body E w burst pkt_idx with
      | (w1, Next) => pkt_loop E n' (pkt_idx + 1) burst w1
      | r => r
      end
  end.

(** The way a call of [compute] ends. *)
Inductive Outcome : Type :=
| Completed
| NoBurst
| Ignored
| FellBehind
| Exited (code : Z).

Definition compute (E : Env) (w : Op) (burst_opt : option AdvNetBurstParams) : Op * Outcome :=
  let w := free_batch_queue E w in
  match burst_opt with
  | None => (emit w [HOLOSCAN_LOG_ERROR no_burst_msg []], NoBurst)
  | Some burst =>
      if adv_net_get_q_id burst =? 0 then (w, Ignored)
      else
        let w := set_ttl_pkts_recv_ w (wrap64 (ttl_pkts_recv_ w + adv_net_get_num_pkts burst)) in
        match pkt_loop E (Z.to_nat (adv_net_get_num_pkts burst)) 0 burst w with
        | (w1, Next) =>
            (set_ttl_bytes_recv_ w1
               (wrap64 (ttl_bytes_recv_ w1 + adv_net_get_burst_tot_byte burst)),
             Completed)
        | (w1, Return) => (w1, FellBehind)
        | (w1, Exit c) => (w1, Exited c)
        end
  end.

(** The operator driven by the scheduler: one [compute] per input, until the
    process exits.  The boolean tells whether the process is still alive. *)
Fixpoint run (E : Env) (w : Op) (inputs : list (option AdvNetBurstParams)) : Op * bool :=
  match inputs with
  | [] => (w, true)
  | i :: rest =>
      match compute E w i with
      | (w', Exited _) => (w', false)
      | (w', _) => run E w' rest
      end
  end.

(** The outcomes of the successive [compute] calls of [run]. *)
Fixpoint run_outcomes (E : Env) (w : Op) (inputs : list (option AdvNetBurstParams))
  : list Outcome :=
  match inputs with
  | [] => []
  | i :: rest =>
      match compute E w i with
      | (w', Exited c) => [Exited c]
      | (w', o) => o :: run_outcomes E w' rest
      end
  end.

(** ** Observations on the log of external calls *)

(** The pointer table handed to a kernel launch.  The warm-up launches of
    [initialize] pass [NULL] and so hand over no table. *)
Definition launched_table (c : Call) : option (list Z) :=
  match c with
  | simple_packet_reorder _ (Some (_, t)) _ _ _ => Some t
  | _ => None
  end.

Definition launched_tables (cs : list Call) : list (list Z) := omap launched_table cs.

Definition is_launch (c : Call) : bool :=
  match c with simple_packet_reorder _ _ _ _ _ => true | _ => false end.

Definition is_poll (c : Call) : bool :=
  match c with cudaEventQuery _ _ => true | _ => false end.

Definition is_blocking_wait (c : Call) : bool :=
  match c with
  | cudaEventSynchronize _ | cudaStreamSynchronize _ => true
  | _ => false
  end.

Definition is_event_record (c : Call) : bool :=
  match c with cudaEventRecord _ _ => true | _ => false end.

(** The poll that [free_batch_queue] makes for the record at position [i]
    of the queue when it started with clock [clk]. *)
Definition poll_of (E : Env) (clk : nat) (i : nat) (b : BatchAggregationParams) : Call :=
  cudaEventQuery (evt b) (event_status E (clk + i) (evt b)).

(** Every launch in a list of calls is directly followed by the record of
    the completion marker of the same slot on the same stream, and that by
    the blocking wait for the marker. *)
Definition launch_then_record (cs : list Call) : Prop :=
  forall pre post out in_ len n s,
    cs = pre ++ simple_packet_reorder out in_ len n s :: post ->
    exists i post',
      s = streams_ i /\
      post = cudaEventRecord (events_ i) (streams_ i)
             :: cudaEventSynchronize (events_ i) :: post'.

(** The payload pointers of a burst in packet order, and of a sequence of
    bursts in arrival order. *)
Definition burst_ptrs (hs : Z) (burst : AdvNetBurstParams) : list Z :=
  map (fun i => adv_net_get_pkt_ptr burst (Z.of_nat i) + hs)
      (seq 0 (Z.to_nat (adv_net_get_num_pkts burst))).

Definition arrival_ptrs (hs : Z) (bs : list AdvNetBurstParams) : list Z :=
  concat (map (burst_ptrs hs) bs).

(** A record of the tracker carries the completion marker of [slot]: a
    batch launched from that slot is still in flight. *)
Definition in_flight (w : Op) (slot : Z) : Prop :=
  exists b, In b (batch_q_ w) /\ evt b = events_ slot.

(** The calls of [launch_kernel] for the current slot of [w]. *)
Definition launch_calls (E : Env) (w : Op) : list Call :=
  let idx := cur_batch_idx_ w in
  let dbg := DEBUG_CUDA_TIMES E =? 1 in
  (if dbg then [cudaEventRecord (events_start_ idx) (streams_ idx)] else [])
  ++ [simple_packet_reorder
        (full_batch_data_d_ idx)
        (Some (idx, take (Z.to_nat (batch_size_ w)) (table_of (h_dev_ptrs_ w) idx)))
        (nom_payload_size_ w) (batch_size_ w) (streams_ idx)]
  ++ (if dbg then
        [cudaEventRecord (events_ idx) (streams_ idx);
         cudaEventSynchronize (events_ idx);
         cudaEventElapsedTime (events_start_ idx) (events_ idx);
         HOLOSCAN_LOG_INFO debug_times_msg [aggr_pkts_recv_ w]]
      else []).

(** The operator after the reset of [aggr_pkts_recv_] and the reclaim pass
    that open the launch path (lines 129-133). *)
Definition after_reclaim (E : Env) (w : Op) : Op :=
  free_batch_queue E (set_aggr_pkts_recv_ w 0).

(** The record that the launch path pushes for the current slot. *)
Definition pushed_record (w : Op) : BatchAggregationParams :=
  with_evt (cur_batch_ w) (events_ (cur_batch_idx_ w)).

(** [w'] extends the call log of [w] by calls that satisfy [P]. *)
Definition emits (P : list Call -> Prop) (w w' : Op) : Prop :=
  exists cs, calls w' = calls w ++ cs /\ P cs.

(** The operator inside [compute] on a data-queue burst: after the reclaim
    pass and the packet count (lines 108-125), and after [n] more rounds of
    the packet loop. *)
Definition counted (E : Env) (w : Op) (burst : AdvNetBurstParams) : Op :=
  let w := free_batch_queue E w in
  set_ttl_pkts_recv_ w (wrap64 (ttl_pkts_recv_ w + adv_net_get_num_pkts burst)).

Definition mid_compute (E : Env) (w : Op) (burst : AdvNetBurstParams) (n : nat) : Op * Ctl :=
  pkt_loop E n 0 burst (counted E w burst).

(** A record that retains no burst: the count is zero and every entry of
    the burst array is null. *)
Definition holds_no_burst (b : BatchAggregationParams) : Prop :=
  num_bursts b = 0 /\ bursts b = replicate (Z.to_nat MAX_ANO_BURSTS) None.

(** The marker of a record is the completion marker of one of the slots. *)
Definition marks_a_slot (b : BatchAggregationParams) : Prop :=
  exists slot, 0 <= slot < num_concurrent /\ evt b = events_ slot.

(** The records of the tracker and the record under construction retain no
    burst, and the current slot is one of the [num_concurrent] slots. *)
Definition records_empty (w : Op) : Prop :=
  holds_no_burst (cur_batch_ w) /\
  0 <= cur_batch_idx_ w < num_concurrent /\
  Forall (fun b => holds_no_burst b /\ marks_a_slot b) (batch_q_ w).

(** The pointers the operator has waiting in the table of the current
    slot. *)
Definition pending (w : Op) : list Z :=
  take (Z.to_nat (aggr_pkts_recv_ w)) (table_of (h_dev_ptrs_ w) (cur_batch_idx_ w)).

(** The tables are the [num_concurrent] tables of [batch_size] pointers
    that [initialize] allocates, and the current slot is one of them. *)
Definition tables_ok (B hs : Z) (w : Op) : Prop :=
  batch_size_ w = B /\ header_size_ w = hs /\
  length (h_dev_ptrs_ w) = 4%nat /\
  Forall (fun t => length t = Z.to_nat B) (h_dev_ptrs_ w) /\
  0 <= cur_batch_idx_ w < num_concurrent.

(** The payload pointers [ptrs] received so far are the launched tables, in
    launch order, followed by the pending pointers. *)
Definition accounted (B : Z) (ptrs : list Z) (w : Op) : Prop :=
  Forall (fun t => length t = Z.to_nat B) (launched_tables (calls w)) /\
  concat (launched_tables (calls w)) ++ pending w = ptrs.

(** The operator between two rounds of the packet loop when every round so
    far fell through. *)
Definition filling (B hs : Z) (ptrs : list Z) (w : Op) : Prop :=
  tables_ok B hs w /\ accounted B ptrs w /\
  0 <= aggr_pkts_recv_ w <= B /\ (ptrs = [] \/ 1 <= aggr_pkts_recv_ w).

(** The operator right before the store of a round: the current table has
    room. *)
Definition has_room (B hs : Z) (ptrs : list Z) (w : Op) : Prop :=
  tables_ok B hs w /\ accounted B ptrs w /\ 0 <= aggr_pkts_recv_ w < B.

(** Every record of the tracker stands for a table launched earlier. *)
Definition tracked (w : Op) : Prop :=
  (length (batch_q_ w) <= length (launched_tables (calls w)))%nat.

(** The slot whose table is handed to a kernel launch. *)
Definition launched_slot (c : Call) : option Z :=
  match c with
  | simple_packet_reorder _ (Some (i, _)) _ _ _ => Some i
  | _ => None
  end.

Definition launched_slots (cs : list Call) : list Z := omap launched_slot cs.

(** The first [n] slots in round-robin order: 0, 1, 2, 3, 0, 1, ... *)
Definition round_robin (n : nat) : list Z :=
  map (fun j => Z.of_nat j mod num_concurrent) (seq 0 n).

(** The launches so far went round-robin over the slots. *)
Definition ring_slots (w : Op) : Prop :=
  launched_slots (calls w) = round_robin (length (launched_slots (calls w))).

(** The bookkeeping of a live operator: the current slot is the one after
    the last launched slot, and the markers in the tracker are those of the
    most recent launches, oldest first. *)
Definition ring (w : Op) : Prop :=
  ring_slots w /\
  cur_batch_idx_ w = Z.of_nat (length (launched_slots (calls w))) mod num_concurrent /\
  (length (batch_q_ w) <= length (launched_slots (calls w)))%nat /\
  map evt (batch_q_ w)
  = map events_ (drop (length (launched_slots (calls w)) - length (batch_q_ w))
                      (launched_slots (calls w))).

(** What [ring] leaves after a step that may have called [exit]. *)
Definition ring_after (r : Op * Ctl) : Prop :=
  match r.2 with
  | Exit _ => ring_slots r.1
  | _ => ring r.1
  end.

Definition ring_after_compute (r : Op * Outcome) : Prop :=
  match r.2 with
  | Exited _ => ring_slots r.1
  | _ => ring r.1
  end.

Definition ring_after_run (r : Op * bool) : Prop :=
  if r.2 then ring r.1 else ring_slots r.1.

(** ** The destructor and the defaults of [setup] *)

(** The calls of the destructor to the network operator, which are no
    calls to the CUDA runtime or the logger. *)
Inductive AnoCall : Type :=
| adv_net_shutdown
| adv_net_print_stats.

Definition finished_msg : string :=
  "Finished receiver with {}/{} bytes/packets received".
Definition shutting_down_msg : string := "ANO benchmark RX op shutting down".

(** [~AdvNetworkingBenchDocaRxOp()] (lines 34-41): the calls it makes, in
    order.  It changes no member of the operator. *)
Definition AdvNetworkingBenchDocaRxOp_destructor (w : Op) : list (Call + AnoCall) :=
  [ inl (HOLOSCAN_LOG_INFO finished_msg [ttl_bytes_recv_ w; ttl_pkts_recv_ w]);
    inl (HOLOSCAN_LOG_INFO shutting_down_msg []);
    inr adv_net_shutdown;
    inr adv_net_print_stats ].

(** The default values that [setup] registers for the three parameters
    (lines 68-82). *)
Definition default_batch_size : Z := 1000.
Definition default_max_packet_size : Z := 9100.
Definition default_header_size : Z := 42.

(** ** Accounts of a run *)

(** The inputs that [run] hands to [compute], each with the way that call
    ended; the account stops with the call that exits. *)
Fixpoint run_log (E : Env) (w : Op) (inputs : list (option AdvNetBurstParams))
  : list (option AdvNetBurstParams * Outcome) :=
  match inputs with
  | [] => []
  | i :: rest =>
      match compute E w i with
      | (w', Exited c) => [(i, Exited c)]
      | (w', o) => (i, o) :: run_log E w' rest
      end
  end.

(** What one call contributes to the lifetime totals: the packets of a
    burst that got past the queue-id test, the bytes of a burst whose loop
    went through all its packets. *)
Definition counted_pkts (e : option AdvNetBurstParams * Outcome) : Z :=
  match e with
  | (Some burst, Completed) | (Some burst, FellBehind) | (Some burst, Exited _) =>
      adv_net_get_num_pkts burst
  | _ => 0
  end.

Definition counted_bytes (e : option AdvNetBurstParams * Outcome) : Z :=
  match e with
  | (Some burst, Completed) => adv_net_get_burst_tot_byte burst
  | _ => 0
  end.

Definition sum_Z (l : list Z) : Z := fold_right Z.add 0 l.

(** The outcome of a call fits its input: no burst, a burst on queue 0, or
    a burst on a data queue. *)
Definition outcome_fits (e : option AdvNetBurstParams * Outcome) : Prop :=
  match e with
  | (None, o) => o = NoBurst
  | (Some burst, o) =>
      if adv_net_get_q_id burst =? 0 then o = Ignored
      else o = Completed \/ o = FellBehind \/ exists c, o = Exited c
  end.

(** A value that an [int64_t] member can hold. *)
Definition in_int64 (z : Z) : Prop := wrap64 z = z.

(** A device that reports no error after a launch, and a device on which
    no completion marker is ever satisfied. *)
Definition no_device_error (E : Env) : Prop :=
  forall n, last_error E n = cudaSuccess.

Definition stalled (E : Env) : Prop :=
  forall n e, event_status E n e <> cudaSuccess.

(** Every launched table still has its record in the tracker. *)
Definition none_reclaimed (w : Op) : Prop :=
  length (batch_q_ w) = length (launched_tables (calls w)).

(** A device whose answer to a poll depends on the marker only, not on
    the time of the poll. *)
Definition steady (E : Env) : Prop :=
  forall n m e, event_status E n e = event_status E m e.

(** The calls that allocate memory or create a stream or an event. *)
Definition is_allocation (c : Call) : bool :=
  match c with
  | cudaMallocHost _ _ | cudaMallocAsync _ _ _
  | cudaStreamCreateWithFlags _ | cudaEventCreate _ => true
  | _ => false
  end.

(** The tables and the parameters as [initialize] leaves them. *)
Definition configured (B max_packet_size hs : Z) (w : Op) : Prop :=
  length (h_dev_ptrs_ w) = 4%nat /\
  Forall (fun t => length t = Z.to_nat B) (h_dev_ptrs_ w) /\
  batch_size_ w = B /\
  header_size_ w = hs /\
  nom_payload_size_ w = wrap_u16 (max_packet_size - hs).



(** ** Sample environments and bursts *)

(** A device that has finished every batch by the time it is polled. *)
Definition env_ready (dbg : Z) : Env :=
  {| DEBUG_CUDA_TIMES := dbg;
     event_status := fun _ _ => cudaSuccess;
     last_error := fun _ => cudaSuccess |}.

(** A device that has not finished any batch yet. *)
Definition env_busy (dbg : Z) : Env :=
  {| DEBUG_CUDA_TIMES := dbg;
     event_status := fun _ _ => cudaErrorNotReady;
     last_error := fun _ => cudaSuccess |}.

(** A device on which every launch leaves an error behind. *)
Definition env_faulty (dbg : Z) : Env :=
  {| DEBUG_CUDA_TIMES := dbg;
     event_status := fun _ _ => cudaErrorNotReady;
     last_error := fun _ => cudaErrorOther 700 |}.

(** A device that has finished the batches of slot 0 and no others. *)
Definition env_slot0_done (dbg : Z) : Env :=
  {| DEBUG_CUDA_TIMES := dbg;
     event_status := fun _ e => match e with Event 0 => cudaSuccess | _ => cudaErrorNotReady end;
     last_error := fun _ => cudaSuccess |}.

(** A burst of [n] packets on queue [q], the packets 100 bytes apart from
    address 1000. *)
Definition sample_burst (q n : Z) : AdvNetBurstParams :=
  {| hdr_q_id := q;
     hdr_num_pkts := n;
     hdr_tot_byte := 100 * n;
     pkts := fun i => 1000 + 100 * i |}.

(** * holoviz_srgb.cpp: the option loop of [main]

    [main] of [applications/holoviz/holoviz_srgb/holoviz_srgb.cpp] asks
    [getopt_long] for one option after the other.  [getopt_long] and
    [std::stoi] are library functions: the answers of the former are the
    input of the model (the list of answers in the order of the calls; after
    the list the answer is [-1]), the latter is a parameter [stoi], whose
    result [None] stands for a thrown exception, which [main] does not
    catch. *)

Record GetoptResult : Type := {
  opt_code : Z;              (* the [int] that [getopt_long] returns *)
  optarg : option string     (* [None]: a null [optarg] *)
}.

Definition code_h : Z := 104.         (* 'h' *)
Definition code_c : Z := 99.          (* 'c' *)
Definition code_unknown : Z := 63.    (* '?' *)

(** What [main] does that can be observed. *)
Inductive MainEvent : Type :=
| print_usage (argv0 : string)
| log_unhandled_option (c : Z)        (* printed as [static_cast<char>(c)] *)
| app_run (count : Z)                 (* [make_application<App>(count)->run()] *)
| log_finished.

Inductive LoopEnd : Type :=
| loop_break (count : Z)
| loop_return (code : Z)
| loop_throw.

Inductive MainEnd : Type :=
| main_returns (code : Z)
| main_throws.

Section Main.
Variable stoi : string -> option Z.
Variable argv0 : string.

(** The [while (true)] loop, lines 139-168. *)
Fixpoint option_loop (answers : list GetoptResult) (count : Z)
  : list MainEvent * LoopEnd :=
  match answers with
  | [] => ([], loop_break count)
  | a :: rest =>
      let c := opt_code a in
      if c =? -1 then ([], loop_break count)
      else
        let argument := default EmptyString (optarg a) in
        if c =? code_h then ([print_usage argv0], loop_return 0)
        else if c =? code_c then
          match stoi argument with
          | Some v => option_loop rest v
          | None => ([], loop_throw)
          end
        else if c =? code_unknown then option_loop rest count
        else
          let '(ev, e) := option_loop rest count in
          (log_unhandled_option c :: ev, e)
  end.

Definition main (answers : list GetoptResult) : list MainEvent * MainEnd :=
  match option_loop answers (-1) with
  | (ev, loop_break count) => (ev ++ [app_run count; log_finished], main_returns 0)
  | (ev, loop_return code) => (ev, main_returns code)
  | (ev, loop_throw) => (ev, main_throws)
  end.

(** An answer after which the loop goes on to the next one. *)
Definition passes (a : GetoptResult) : bool :=
  negb (opt_code a =? -1) && negb (opt_code a =? code_h) &&
  (negb (opt_code a =? code_c) ||
   bool_decide (is_Some (stoi (default EmptyString (optarg a))))).

Definition is_count (a : GetoptResult) : bool := opt_code a =? code_c.

Definition is_unhandled (a : GetoptResult) : bool :=
  negb (opt_code a =? code_h) && negb (opt_code a =? code_c) &&
  negb (opt_code a =? code_unknown).

Definition unhandled (answers : list GetoptResult) : list MainEvent :=
  map (fun a => log_unhandled_option (opt_code a)) (List.filter is_unhandled answers).

(** The value of [count] after the answers [pre], all of which pass. *)
Definition count_after (pre : list GetoptResult) (count : Z) : Z :=
  fold_left (fun cnt a =>
               if is_count a then default cnt (stoi (default EmptyString (optarg a)))
               else cnt) pre count.

End Main.

(** A stand-in for [std::stoi] in the sample runs: it knows the numerals
    ["5"] and ["12"] and throws on every other string. *)
Definition sample_stoi (s : string) : option Z :=
  if String.eqb s "5" then Some 5
  else if String.eqb s "12" then Some 12
  else None.

Definition short_option (c : Z) (arg : option string) : GetoptResult :=
  {| opt_code := c; optarg := arg |}.

(** * Properties *)

(** ** Arithmetic *)

Lemma wrap64_small z : - 2 ^ 63 <= z < 2 ^ 63 -> wrap64 z = z.
Proof.
  intros Hz. unfold wrap64.
  rewrite Z.mod_small by lia. lia.
Qed.

Lemma is_cudaSuccess_true r : is_cudaSuccess r = true <-> r = cudaSuccess.
Proof. destruct r; simpl; split; congruence. Qed.

Lemma is_cudaSuccess_false r : is_cudaSuccess r = false <-> r <> cudaSuccess.
Proof. destruct r; simpl; split; congruence. Qed.

(** ** The reclaim loop *)

(** What the loop of [free_batch_queue] does, in terms of the number [k] of
    records it pops. *)
Lemma free_batch_queue_loop_spec E q clk :
  exists k : nat,
    (k <= length q)%nat /\
    free_batch_queue_loop E q clk
    = (drop k q, imap (poll_of E clk) (take (S k) q), (clk + length (take (S k) q))%nat) /\
    (forall i b, (i < k)%nat -> q !! i = Some b ->
                 event_status E (clk + i) (evt b) = cudaSuccess) /\
    (forall b, q !! k = Some b -> event_status E (clk + k) (evt b) <> cudaSuccess).
Proof.
  revert clk. induction q as [|b rest IH]; intros clk.
  - exists O. simpl. rewrite Nat.add_0_r. repeat split; try lia; intros; discriminate.
  - simpl. destruct (is_cudaSuccess (event_status E clk (evt b))) eqn:Hb.
    + destruct (IH (S clk)) as (k & Hk & Heq & Hsat & Hstop).
      exists (S k). rewrite Heq. split; [simpl; lia|]. split.
      * simpl. f_equal; [f_equal|lia].
        unfold poll_of at 2. rewrite Nat.add_0_r. f_equal.
        apply imap_ext. intros i x _. unfold poll_of. simpl.
        by replace (clk + S i)%nat with (S clk + i)%nat by lia.
      * split.
        -- intros [|i] x Hi Hx; simpl in Hx.
           ++ inversion Hx; subst. rewrite Nat.add_0_r. by apply is_cudaSuccess_true.
           ++ replace (clk + S i)%nat with (S clk + i)%nat by lia.
              apply Hsat; [lia|done].
        -- intros x Hx. simpl in Hx.
           replace (clk + S k)%nat with (S clk + k)%nat by lia. by apply Hstop.
    + exists O. simpl. split; [lia|]. split.
      * unfold poll_of. rewrite Nat.add_0_r. f_equal. lia.
      * split; [intros; lia|].
        intros x Hx. inversion Hx; subst. rewrite Nat.add_0_r.
        by apply is_cudaSuccess_false.
Qed.

Lemma free_batch_queue_loop_length E q clk :
  (length (free_batch_queue_loop E q clk).1.1 <= length q)%nat.
Proof.
  destruct (free_batch_queue_loop_spec E q clk) as (k & _ & -> & _). simpl.
  rewrite length_drop. lia.
Qed.

Lemma free_batch_queue_loop_polls E q clk :
  Forall (fun c => is_poll c = true) (free_batch_queue_loop E q clk).1.2.
Proof.
  revert clk. induction q as [|b rest IH]; intros clk; simpl; [constructor|].
  destruct (is_cudaSuccess _).
  - specialize (IH (S clk)). destruct (free_batch_queue_loop E rest (S clk)) as [[q' cs] c'].
    simpl in *. by constructor.
  - simpl. by repeat constructor.
Qed.

(** [free_batch_queue] touches the queue, the call log and the clock only. *)
Lemma free_batch_queue_frame E w :
  let w' := free_batch_queue E w in
  cur_batch_ w' = cur_batch_ w /\ cur_batch_idx_ w' = cur_batch_idx_ w /\
  ttl_bytes_recv_ w' = ttl_bytes_recv_ w /\ ttl_pkts_recv_ w' = ttl_pkts_recv_ w /\
  aggr_pkts_recv_ w' = aggr_pkts_recv_ w /\ nom_payload_size_ w' = nom_payload_size_ w /\
  h_dev_ptrs_ w' = h_dev_ptrs_ w /\ batch_size_ w' = batch_size_ w /\
  max_packet_size_ w' = max_packet_size_ w /\ header_size_ w' = header_size_ w.
Proof.
  unfold free_batch_queue.
  destruct (free_batch_queue_loop E (batch_q_ w) (clock w)) as [[q' cs] clk'].
  simpl. repeat split.
Qed.

Lemma free_batch_queue_unfold E w :
  free_batch_queue E w
  = set_clock (emit (set_batch_q_ w (free_batch_queue_loop E (batch_q_ w) (clock w)).1.1)
                    (free_batch_queue_loop E (batch_q_ w) (clock w)).1.2)
              (free_batch_queue_loop E (batch_q_ w) (clock w)).2.
Proof.
  unfold free_batch_queue.
  by destruct (free_batch_queue_loop E (batch_q_ w) (clock w)) as [[q' cs] clk'].
Qed.

(** C8: [free_batch_queue] (the tracker's [reclaim]) only polls: it pops
    exactly the longest prefix of the queue whose markers are satisfied when
    polled, it polls the records in queue order up to and including the
    first unsatisfied one and none behind it, it leaves the rest of the
    operator alone, and with an unsatisfied head it leaves the queue as it
    is. *)
Theorem free_batch_queue_pops_satisfied_prefix (E : Env) (w : Op) :
  exists k : nat,
    (k <= length (batch_q_ w))%nat /\
    batch_q_ (free_batch_queue E w) = drop k (batch_q_ w) /\
    (forall i b, (i < k)%nat -> batch_q_ w !! i = Some b ->
                 event_status E (clock w + i) (evt b) = cudaSuccess) /\
    (forall b, batch_q_ w !! k = Some b ->
               event_status E (clock w + k) (evt b) <> cudaSuccess) /\
    calls (free_batch_queue E w)
    = calls w ++ imap (poll_of E (clock w)) (take (S k) (batch_q_ w)) /\
    Forall (fun c => is_poll c = true /\ is_blocking_wait c = false)
           (imap (poll_of E (clock w)) (take (S k) (batch_q_ w))) /\
    h_dev_ptrs_ (free_batch_queue E w) = h_dev_ptrs_ w /\
    cur_batch_idx_ (free_batch_queue E w) = cur_batch_idx_ w /\
    aggr_pkts_recv_ (free_batch_queue E w) = aggr_pkts_recv_ w /\
    (forall b rest, batch_q_ w = b :: rest ->
                    event_status E (clock w) (evt b) <> cudaSuccess ->
                    batch_q_ (free_batch_queue E w) = batch_q_ w /\
                    length (batch_q_ (free_batch_queue E w)) = length (batch_q_ w)).
Proof.
  destruct (free_batch_queue_loop_spec E (batch_q_ w) (clock w))
    as (k & Hk & Heq & Hsat & Hstop).
  assert (Hhead : forall b rest, batch_q_ w = b :: rest ->
                    event_status E (clock w) (evt b) <> cudaSuccess -> k = O).
  { intros b rest Hq Hb. destruct k as [|k]; [done|].
    exfalso. apply Hb. rewrite <- (Nat.add_0_r (clock w)).
    apply Hsat; [lia|]. by rewrite Hq. }
  exists k. rewrite free_batch_queue_unfold, Heq. simpl.
  split; [done|]. split; [done|]. split; [done|]. split; [done|].
  split; [done|]. split; [|split; [done|split; [done|split; [done|]]]].
  - apply Forall_forall. intros c Hc.
    apply elem_of_lookup_imap in Hc as (i & b & -> & _).
    by unfold poll_of.
  - intros b rest Hq Hb. by rewrite (Hhead b rest Hq Hb).
Qed.

(** ** Launched tables in a call log *)

Lemma launched_tables_app a b :
  launched_tables (a ++ b) = launched_tables a ++ launched_tables b.
Proof. apply omap_app. Qed.

Lemma launched_tables_polls cs :
  Forall (fun c => is_poll c = true) cs -> launched_tables cs = [].
Proof.
  induction 1 as [|c cs Hc _ IH]; [done|].
  destruct c; try discriminate. exact IH.
Qed.

(** ** The launch path *)

Lemma emit_emit w a b : emit (emit w a) b = emit w (a ++ b).
Proof. unfold emit. simpl. by rewrite app_assoc. Qed.

Lemma launch_kernel_emit E w : launch_kernel E w = emit w (launch_calls E w).
Proof.
  unfold launch_kernel, launch_calls.
  destruct (DEBUG_CUDA_TIMES E =? 1); simpl.
  - by rewrite !emit_emit.
  - done.
Qed.

Lemma after_reclaim_frame E w :
  cur_batch_ (after_reclaim E w) = cur_batch_ w /\
  cur_batch_idx_ (after_reclaim E w) = cur_batch_idx_ w /\
  ttl_bytes_recv_ (after_reclaim E w) = ttl_bytes_recv_ w /\
  ttl_pkts_recv_ (after_reclaim E w) = ttl_pkts_recv_ w /\
  aggr_pkts_recv_ (after_reclaim E w) = 0 /\
  nom_payload_size_ (after_reclaim E w) = nom_payload_size_ w /\
  h_dev_ptrs_ (after_reclaim E w) = h_dev_ptrs_ w /\
  batch_size_ (after_reclaim E w) = batch_size_ w /\
  header_size_ (after_reclaim E w) = header_size_ w.
Proof.
  unfold after_reclaim.
  destruct (free_batch_queue_frame E (set_aggr_pkts_recv_ w 0))
    as (H1 & H2 & H3 & H4 & H5 & H6 & H7 & H8 & H9 & H10).
  rewrite H1, H2, H3, H4, H5, H6, H7, H8, H10. simpl. repeat split.
Qed.

Lemma after_reclaim_queue E w :
  exists k, batch_q_ (after_reclaim E w) = drop k (batch_q_ w).
Proof.
  unfold after_reclaim. rewrite free_batch_queue_unfold. simpl.
  destruct (free_batch_queue_loop_spec E (batch_q_ w) (clock w)) as (k & _ & -> & _).
  by exists k.
Qed.

Lemma after_reclaim_calls E w :
  exists cs, calls (after_reclaim E w) = calls w ++ cs /\
             Forall (fun c => is_poll c = true) cs.
Proof.
  unfold after_reclaim. rewrite free_batch_queue_unfold. simpl.
  eexists. split; [done|]. apply free_batch_queue_loop_polls.
Qed.

(** The saturated branch: the log entry and [return], nothing else. *)
Lemma launch_batch_saturated E w :
  length (batch_q_ (after_reclaim E w)) = 4%nat ->
  launch_batch E w
  = (emit (after_reclaim E w) [HOLOSCAN_LOG_ERROR fell_behind_msg []], Return).
Proof.
  intros H4. unfold launch_batch. fold (after_reclaim E w).
  rewrite H4. reflexivity.
Qed.

(** The launching branch, field by field. *)
Lemma launch_batch_launched E w :
  length (batch_q_ (after_reclaim E w)) <> 4%nat ->
  let w1 := after_reclaim E w in
  let r := last_error E (clock w1) in
  let w' := (launch_batch E w).1 in
  (launch_batch E w).2 = (if is_cudaSuccess r then Next else Exit 1) /\
  calls w' = calls w1 ++ launch_calls E w1 ++ [cudaGetLastError r]
             ++ (if is_cudaSuccess r then []
                 else [HOLOSCAN_LOG_ERROR cuda_error_msg
                         [batch_size_ w; wrap_u32 (batch_size_ w * nom_payload_size_ w)];
                       exit 1]) /\
  batch_q_ w' = batch_q_ w1 ++ [pushed_record w] /\
  cur_batch_ w' = with_num_bursts (pushed_record w) 0 /\
  cur_batch_idx_ w' = (if is_cudaSuccess r
                       then Z.rem (cur_batch_idx_ w + 1) num_concurrent
                       else cur_batch_idx_ w) /\
  aggr_pkts_recv_ w' = 0 /\
  h_dev_ptrs_ w' = h_dev_ptrs_ w /\
  ttl_bytes_recv_ w' = ttl_bytes_recv_ w /\
  ttl_pkts_recv_ w' = ttl_pkts_recv_ w /\
  batch_size_ w' = batch_size_ w /\
  header_size_ w' = header_size_ w /\
  nom_payload_size_ w' = nom_payload_size_ w.
Proof.
  intros Hne w1 r w'. subst w'. unfold launch_batch. fold (after_reclaim E w). fold w1.
  destruct (Z.of_nat (length (batch_q_ w1)) =? num_concurrent) eqn:Hq.
  { apply Z.eqb_eq in Hq. unfold num_concurrent in Hq. subst w1. lia. }
  rewrite launch_kernel_emit.
  destruct (after_reclaim_frame E w) as (F1 & F2 & F3 & F4 & F5 & F6 & F7 & F8 & F9).
  fold w1 in F1, F2, F3, F4, F5, F6, F7, F8, F9.
  simpl. fold r. unfold pushed_record.
  destruct (is_cudaSuccess r); simpl;
    rewrite ?F1, ?F2, ?F3, ?F4, ?F5, ?F6, ?F7, ?F8, ?F9, <- ?app_assoc; simpl;
    repeat split; try done.
Qed.

Lemma launch_if_full_below E w :
  aggr_pkts_recv_ w < batch_size_ w -> launch_if_full E w = (w, Next).
Proof.
  intros Hlt. unfold launch_if_full.
  destruct (aggr_pkts_recv_ w >=? batch_size_ w) eqn:Hge; [lia|done].
Qed.

Lemma launch_if_full_reached E w :
  batch_size_ w <= aggr_pkts_recv_ w -> launch_if_full E w = launch_batch E w.
Proof.
  intros Hle. unfold launch_if_full.
  destruct (aggr_pkts_recv_ w >=? batch_size_ w) eqn:Hge; [done|lia].
Qed.

(** ** Invariants of the packet loop, of [compute] and of [run] *)

Section Invariant.

Context (E : Env) (I : Op -> Prop).
Hypothesis I_free : forall w, I w -> I (free_batch_queue E w).
Hypothesis I_launch : forall w, I w -> I (launch_batch E w).1.
Hypothesis I_store : forall w p, I w -> I (store_pkt w p).
Hypothesis I_emit : forall w cs, I w -> I (emit w cs).
Hypothesis I_pkts : forall w n, I w -> I (set_ttl_pkts_recv_ w n).
Hypothesis I_bytes : forall w n, I w -> I (set_ttl_bytes_recv_ w n).

Lemma loop_body_invariant w burst idx : I w -> I (loop_body E w burst idx).1.
Proof.
  intros Hw. unfold loop_body, launch_if_full.
  destruct (aggr_pkts_recv_ w >=? batch_size_ w).
  - specialize (I_launch w Hw).
    destruct (launch_batch E w) as [w1 [| |c]]; simpl in *; auto.
  - simpl. auto.
Qed.

Lemma pkt_loop_invariant n idx burst w : I w -> I (pkt_loop E n idx burst w).1.
Proof.
  revert idx w. induction n as [|n IH]; intros idx w Hw; simpl; [done|].
  pose proof (loop_body_invariant w burst idx Hw) as Hb.
  destruct (loop_body E w burst idx) as [w1 [| |c]]; simpl in *; auto.
Qed.

Lemma compute_invariant w i : I w -> I (compute E w i).1.
Proof.
  intros Hw. unfold compute. destruct i as [burst|]; simpl; [|auto].
  destruct (adv_net_get_q_id burst =? 0); simpl; [auto|].
  match goal with |- context [pkt_loop E ?n ?i ?b ?w0] =>
    pose proof (pkt_loop_invariant n i b w0) as Hl;
    destruct (pkt_loop E n i b w0) as [w1 [| |c]] end; simpl in *; auto.
Qed.

Lemma run_invariant inputs w : I w -> I (run E w inputs).1.
Proof.
  revert w. induction inputs as [|i rest IH]; intros w Hw; simpl; [done|].
  pose proof (compute_invariant w i Hw) as Hc.
  destruct (compute E w i) as [w1 o]; simpl in *.
  destruct o; auto.
Qed.

End Invariant.

(** ** The calls that [compute] makes *)

Lemma emits_refl (P : list Call -> Prop) w : P [] -> emits P w w.
Proof. intros HP. exists []. by rewrite app_nil_r. Qed.

Section Emits.

Context (E : Env) (P : list Call -> Prop).
Hypothesis P_nil : P [].
Hypothesis P_app : forall a b, P a -> P b -> P (a ++ b).
Hypothesis P_polls : forall cs, Forall (fun c => is_poll c = true) cs -> P cs.
Hypothesis P_log : forall m a, P [HOLOSCAN_LOG_ERROR m a].
Hypothesis P_last : forall r, P [cudaGetLastError r].
Hypothesis P_exit : forall c, P [exit c].
Hypothesis P_launch : forall w, P (launch_calls E w).

Lemma emits_trans w1 w2 w3 : emits P w1 w2 -> emits P w2 w3 -> emits P w1 w3.
Proof.
  intros (a & Ha & Pa) (b & Hb & Pb). exists (a ++ b).
  split; [|by apply P_app]. by rewrite Hb, Ha, app_assoc.
Qed.

Lemma emits_emit w cs : P cs -> emits P w (emit w cs).
Proof. intros HP. by exists cs. Qed.

Lemma free_batch_queue_emits w : emits P w (free_batch_queue E w).
Proof.
  rewrite free_batch_queue_unfold. eexists. split; [done|].
  apply P_polls, free_batch_queue_loop_polls.
Qed.

Lemma launch_batch_emits w : emits P w (launch_batch E w).1.
Proof.
  assert (Hr : emits P w (after_reclaim E w)).
  { destruct (after_reclaim_calls E w) as (cs & Hcs & Hp). exists cs. auto. }
  destruct (decide (length (batch_q_ (after_reclaim E w)) = 4%nat)) as [H4|H4].
  - rewrite launch_batch_saturated by done. simpl.
    eapply emits_trans; [exact Hr|]. by apply emits_emit.
  - destruct (launch_batch_launched E w H4) as (_ & Hc & _).
    eapply emits_trans; [exact Hr|]. eexists. split; [exact Hc|].
    apply P_app; [done|]. apply P_app; [done|].
    destruct (is_cudaSuccess _); [done|].
    apply (P_app [_] [_]); auto.
Qed.

Lemma store_pkt_emits w p : emits P w (store_pkt w p).
Proof. exists []. by rewrite app_nil_r. Qed.

Lemma loop_body_emits w burst idx : emits P w (loop_body E w burst idx).1.
Proof.
  unfold loop_body, launch_if_full.
  destruct (aggr_pkts_recv_ w >=? batch_size_ w).
  - pose proof (launch_batch_emits w) as Hl.
    destruct (launch_batch E w) as [w1 [| |c]]; simpl in *; auto.
  - simpl. apply store_pkt_emits.
Qed.

Lemma pkt_loop_emits n idx burst w : emits P w (pkt_loop E n idx burst w).1.
Proof.
  revert idx w. induction n as [|n IH]; intros idx w; simpl; [by apply emits_refl|].
  pose proof (loop_body_emits w burst idx) as Hb.
  destruct (loop_body E w burst idx) as [w1 [| |c]]; simpl in *; auto.
  eapply emits_trans; [exact Hb|]. apply IH.
Qed.

Lemma compute_emits w i : emits P w (compute E w i).1.
Proof.
  unfold compute. pose proof (free_batch_queue_emits w) as Hf.
  destruct i as [burst|]; simpl.
  - destruct (adv_net_get_q_id burst =? 0); simpl; [done|].
    match goal with |- context [pkt_loop E ?n ?i ?b ?w0] =>
      pose proof (pkt_loop_emits n i b w0) as Hl;
      destruct (pkt_loop E n i b w0) as [w1 [| |c]] end; simpl in *;
      eapply emits_trans; eauto.
  - eapply emits_trans; [exact Hf|]. by apply emits_emit.
Qed.

End Emits.

(** ** The bound on the in-flight batches *)

Lemma free_batch_queue_depth E w :
  (length (batch_q_ (free_batch_queue E w)) <= length (batch_q_ w))%nat.
Proof.
  rewrite free_batch_queue_unfold. simpl. apply free_batch_queue_loop_length.
Qed.

Lemma after_reclaim_depth E w :
  (length (batch_q_ (after_reclaim E w)) <= length (batch_q_ w))%nat.
Proof. unfold after_reclaim. apply (free_batch_queue_depth E (set_aggr_pkts_recv_ w 0)). Qed.

Lemma launch_batch_depth E w :
  (length (batch_q_ w) <= 4)%nat -> (length (batch_q_ (launch_batch E w).1) <= 4)%nat.
Proof.
  intros Hw. pose proof (after_reclaim_depth E w) as Hr.
  destruct (decide (length (batch_q_ (after_reclaim E w)) = 4%nat)) as [H4|H4].
  - rewrite launch_batch_saturated by done. simpl. lia.
  - destruct (launch_batch_launched E w H4) as (_ & _ & Hq & _).
    rewrite Hq, length_app. simpl. lia.
Qed.

Lemma depth_invariant_run E w inputs :
  (length (batch_q_ w) <= 4)%nat -> (length (batch_q_ (run E w inputs).1) <= 4)%nat.
Proof.
  apply (run_invariant E (fun w => (length (batch_q_ w) <= 4)%nat)); try done.
  - intros w0 H0. pose proof (free_batch_queue_depth E w0). lia.
  - apply launch_batch_depth.
Qed.

Lemma depth_invariant_pkt_loop E n idx burst w :
  (length (batch_q_ w) <= 4)%nat ->
  (length (batch_q_ (pkt_loop E n idx burst w).1) <= 4)%nat.
Proof.
  apply (pkt_loop_invariant E (fun w => (length (batch_q_ w) <= 4)%nat)); try done.
  apply launch_batch_depth.
Qed.

(** C4: in every state the operator reaches from [initialize], between
    two calls of [compute] as well as between two rounds of the packet loop,
    the tracker holds at most [num_concurrent] = 4 records; and whenever
    [num_concurrent] records are still in the tracker after the reclaim pass
    of the launch path, the path makes no kernel launch and pushes no
    record. *)
Theorem at_most_num_concurrent_in_flight
  (E : Env) (batch_size max_packet_size header_size : Z)
  (inputs : list (option AdvNetBurstParams)) :
  let w := (run E (initialize batch_size max_packet_size header_size) inputs).1 in
  num_concurrent = 4 /\
  Z.of_nat (length (batch_q_ w)) <= num_concurrent /\
  (forall burst n,
     Z.of_nat (length (batch_q_ (mid_compute E w burst n).1)) <= num_concurrent) /\
  (forall w0 : Op,
     Z.of_nat (length (batch_q_ (after_reclaim E w0))) = num_concurrent ->
     (launch_batch E w0).2 = Return /\
     batch_q_ (launch_batch E w0).1 = batch_q_ (after_reclaim E w0) /\
     exists cs, calls (launch_batch E w0).1 = calls w0 ++ cs /\
                Forall (fun c => is_launch c = false) cs).
Proof.
  intros w. unfold num_concurrent.
  assert (Hw : (length (batch_q_ w) <= 4)%nat).
  { subst w. apply depth_invariant_run. simpl. lia. }
  split; [done|]. split; [lia|]. split.
  - intros burst n. unfold mid_compute, counted.
    pose proof (depth_invariant_pkt_loop E n 0 burst
                  (set_ttl_pkts_recv_ (free_batch_queue E w)
                     (wrap64 (ttl_pkts_recv_ (free_batch_queue E w)
                              + adv_net_get_num_pkts burst)))) as Hl.
    simpl in Hl. pose proof (free_batch_queue_depth E w). lia.
  - intros w0 H4. assert (H4' : length (batch_q_ (after_reclaim E w0)) = 4%nat) by lia.
    rewrite launch_batch_saturated by done. simpl. repeat split.
    destruct (after_reclaim_calls E w0) as (cs & Hcs & Hp).
    exists (cs ++ [HOLOSCAN_LOG_ERROR fell_behind_msg []]).
    rewrite Hcs, app_assoc. split; [done|].
    apply Forall_app. split; [|by repeat constructor].
    eapply Forall_impl; [exact Hp|]. intros c Hc. by destruct c.
Qed.

(** ** Bursts on queue 0 *)

(** C7: a burst whose queue id is 0 is dropped after the opening reclaim
    pass of [compute]: the pointer tables, the fill count, the current slot
    and both lifetime totals are what they were, the calls made are polls of
    completion markers only (no kernel launch), and no record enters the
    tracker. *)
Theorem queue_zero_burst_is_ignored (E : Env) (w : Op) (burst : AdvNetBurstParams) :
  adv_net_get_q_id burst = 0 ->
  let w' := (compute E w (Some burst)).1 in
  (compute E w (Some burst)).2 = Ignored /\
  h_dev_ptrs_ w' = h_dev_ptrs_ w /\
  ttl_pkts_recv_ w' = ttl_pkts_recv_ w /\
  ttl_bytes_recv_ w' = ttl_bytes_recv_ w /\
  aggr_pkts_recv_ w' = aggr_pkts_recv_ w /\
  cur_batch_idx_ w' = cur_batch_idx_ w /\
  cur_batch_ w' = cur_batch_ w /\
  launched_tables (calls w') = launched_tables (calls w) /\
  (exists cs, calls w' = calls w ++ cs /\
              Forall (fun c => is_poll c = true /\ is_launch c = false) cs) /\
  (exists k, batch_q_ w' = drop k (batch_q_ w)).
Proof.
  intros Hq. unfold compute. rewrite Hq. simpl.
  destruct (free_batch_queue_frame E w) as (F1 & F2 & F3 & F4 & F5 & F6 & F7 & _).
  assert (Hcalls : exists cs, calls (free_batch_queue E w) = calls w ++ cs /\
                     Forall (fun c => is_poll c = true /\ is_launch c = false) cs).
  { rewrite free_batch_queue_unfold. simpl. eexists. split; [done|].
    eapply Forall_impl; [apply free_batch_queue_loop_polls|].
    intros c Hc. by destruct c. }
  repeat split; try done.
  - destruct Hcalls as (cs & -> & Hcs). unfold launched_tables.
    rewrite omap_app. rewrite <- (app_nil_r (omap launched_table (calls w))) at 2. f_equal.
    induction Hcs as [|c cs [Hc _] _ IH]; [done|]. by destruct c.
  - rewrite free_batch_queue_unfold. simpl.
    destruct (free_batch_queue_loop_spec E (batch_q_ w) (clock w)) as (k & _ & -> & _).
    by exists k.
Qed.

(** A run of C7: a four-packet burst on queue 0 into the fresh operator. *)
Lemma queue_zero_burst_is_ignored_witness :
  adv_net_get_q_id (sample_burst 0 4) = 0 /\
  ttl_pkts_recv_ (compute (env_ready 0) (initialize 2 9100 42) (Some (sample_burst 0 4))).1 = 0 /\
  h_dev_ptrs_ (compute (env_ready 0) (initialize 2 9100 42) (Some (sample_burst 0 4))).1
  = [[0; 0]; [0; 0]; [0; 0]; [0; 0]].
Proof.
  split; [reflexivity|].
  pose proof (queue_zero_burst_is_ignored (env_ready 0) (initialize 2 9100 42)
                (sample_burst 0 4) eq_refl) as H.
  simpl in H. destruct H as (_ & Ht & Hp & _).
  split; [exact Hp | exact Ht].
Defined.

(** ** The lifetime totals and the saturation return *)

Lemma launch_batch_totals E w :
  ttl_pkts_recv_ (launch_batch E w).1 = ttl_pkts_recv_ w /\
  ttl_bytes_recv_ (launch_batch E w).1 = ttl_bytes_recv_ w.
Proof.
  destruct (decide (length (batch_q_ (after_reclaim E w)) = 4%nat)) as [H4|H4].
  - rewrite launch_batch_saturated by done. simpl.
    destruct (after_reclaim_frame E w) as (_ & _ & F3 & F4 & _). auto.
  - destruct (launch_batch_launched E w H4) as (_ & _ & _ & _ & _ & _ & _ & F3 & F4 & _). auto.
Qed.

Lemma pkt_loop_totals E n idx burst w :
  ttl_pkts_recv_ (pkt_loop E n idx burst w).1 = ttl_pkts_recv_ w /\
  ttl_bytes_recv_ (pkt_loop E n idx burst w).1 = ttl_bytes_recv_ w.
Proof.
  apply (pkt_loop_invariant E
           (fun w' => ttl_pkts_recv_ w' = ttl_pkts_recv_ w /\
                      ttl_bytes_recv_ w' = ttl_bytes_recv_ w)); [| |done].
  - intros w0 [H1 H2]. destruct (launch_batch_totals E w0) as [-> ->]. auto.
  - intros w0 p [H1 H2]. simpl. auto.
Qed.

Lemma counted_totals E w burst :
  ttl_pkts_recv_ (counted E w burst)
  = wrap64 (ttl_pkts_recv_ w + adv_net_get_num_pkts burst) /\
  ttl_bytes_recv_ (counted E w burst) = ttl_bytes_recv_ w.
Proof.
  unfold counted. simpl.
  destruct (free_batch_queue_frame E w) as (_ & _ & F3 & F4 & _).
  by rewrite F3, F4.
Qed.

(** [compute] on a data-queue burst, in terms of [mid_compute]. *)
Lemma compute_data_burst E w burst :
  adv_net_get_q_id burst <> 0 ->
  compute E w (Some burst)
  = match mid_compute E w burst (Z.to_nat (adv_net_get_num_pkts burst)) with
    | (w1, Next) =>
        (set_ttl_bytes_recv_ w1
           (wrap64 (ttl_bytes_recv_ w1 + adv_net_get_burst_tot_byte burst)), Completed)
    | (w1, Return) => (w1, FellBehind)
    | (w1, Exit c) => (w1, Exited c)
    end.
Proof.
  intros Hq. unfold compute, mid_compute, counted.
  destruct (adv_net_get_q_id burst =? 0) eqn:Hz; [lia|done].
Qed.

Lemma compute_fell_behind_data E w burst :
  (compute E w (Some burst)).2 = FellBehind -> adv_net_get_q_id burst <> 0.
Proof.
  unfold compute. destruct (adv_net_get_q_id burst =? 0) eqn:Hz; [discriminate|lia].
Qed.

Lemma compute_completed_data E w burst :
  (compute E w (Some burst)).2 = Completed -> adv_net_get_q_id burst <> 0.
Proof.
  unfold compute. destruct (adv_net_get_q_id burst =? 0) eqn:Hz; [discriminate|lia].
Qed.

(** C10: when [compute] leaves a data-queue burst through the saturation
    check, [ttl_pkts_recv_] has grown by the whole packet count of the burst
    and [ttl_bytes_recv_] is what it was before the call; the bytes of a
    burst are added only when the loop has gone through all its packets. *)
Theorem saturation_counts_packets_but_no_bytes
  (E : Env) (w : Op) (burst : AdvNetBurstParams) :
  ((compute E w (Some burst)).2 = FellBehind ->
   ttl_pkts_recv_ (compute E w (Some burst)).1
   = wrap64 (ttl_pkts_recv_ w + adv_net_get_num_pkts burst) /\
   ttl_bytes_recv_ (compute E w (Some burst)).1 = ttl_bytes_recv_ w) /\
  ((compute E w (Some burst)).2 = Completed ->
   ttl_pkts_recv_ (compute E w (Some burst)).1
   = wrap64 (ttl_pkts_recv_ w + adv_net_get_num_pkts burst) /\
   ttl_bytes_recv_ (compute E w (Some burst)).1
   = wrap64 (ttl_bytes_recv_ w + adv_net_get_burst_tot_byte burst)).
Proof.
  destruct (counted_totals E w burst) as [Hp Hb].
  pose proof (pkt_loop_totals E (Z.to_nat (adv_net_get_num_pkts burst)) 0 burst
                (counted E w burst)) as [Lp Lb].
  fold (mid_compute E w burst (Z.to_nat (adv_net_get_num_pkts burst))) in Lp, Lb.
  split; intros Ho.
  - pose proof (compute_fell_behind_data E w burst Ho) as Hq.
    rewrite compute_data_burst in Ho |- * by done.
    destruct (mid_compute E w burst _) as [w1 [| |c]]; simpl in *; try discriminate.
    by rewrite Lp, Lb.
  - pose proof (compute_completed_data E w burst Ho) as Hq.
    rewrite compute_data_burst in Ho |- * by done.
    destruct (mid_compute E w burst _) as [w1 [| |c]]; simpl in *; try discriminate.
    by rewrite Lp, Lb, Hb.
Qed.

(** A run of C10: with batches of one packet and a device that reclaims
    nothing, the sixth packet of a burst meets four batches in flight. *)
Lemma saturation_counts_packets_but_no_bytes_witness :
  (compute (env_busy 0) (initialize 1 9100 42) (Some (sample_burst 1 6))).2 = FellBehind /\
  ttl_pkts_recv_ (compute (env_busy 0) (initialize 1 9100 42) (Some (sample_burst 1 6))).1 = 6 /\
  ttl_bytes_recv_ (compute (env_busy 0) (initialize 1 9100 42) (Some (sample_burst 1 6))).1 = 0.
Proof.
  split; [reflexivity|].
  exact (proj1 (saturation_counts_packets_but_no_bytes
                  (env_busy 0) (initialize 1 9100 42) (sample_burst 1 6)) eq_refl).
Defined.

Lemma pkt_loop_split E k m idx burst w :
  pkt_loop E (k + m) idx burst w
  = match pkt_loop E k idx burst w with
    | (w1, Next) => pkt_loop E m (idx + Z.of_nat k) burst w1
    | r => r
    end.
Proof.
  revert idx w. induction k as [|k IH]; intros idx w.
  - simpl. by rewrite Z.add_0_r.
  - replace (S k + m)%nat with (S (k + m)) by lia. simpl.
    destruct (loop_body E w burst idx) as [w1 [| |c]]; try done.
    rewrite IH. replace (idx + 1 + Z.of_nat k) with (idx + Z.of_nat (S k)) by lia. done.
Qed.

(** C1 (amended): when a full batch is due in some round of the packet loop
    and [num_concurrent] records are still in the tracker after the reclaim
    pass, [compute] logs the condition and returns at once: after the polls
    of the reclaim pass the log entry is its last call, no kernel is
    launched, no record is pushed, neither the packet of that round nor a
    later packet of the burst is stored, the current slot stays, and the
    bytes of the burst are not counted. *)
Theorem saturation_logs_and_returns
  (E : Env) (w : Op) (burst : AdvNetBurstParams) (k : nat) (wk : Op) :
  adv_net_get_q_id burst <> 0 ->
  (k < Z.to_nat (adv_net_get_num_pkts burst))%nat ->
  mid_compute E w burst k = (wk, Next) ->
  batch_size_ wk <= aggr_pkts_recv_ wk ->
  Z.of_nat (length (batch_q_ (after_reclaim E wk))) = num_concurrent ->
  let r := compute E w (Some burst) in
  r.2 = FellBehind /\
  (exists polls, calls r.1 = calls wk ++ polls ++ [HOLOSCAN_LOG_ERROR fell_behind_msg []] /\
                 Forall (fun c => is_poll c = true) polls) /\
  launched_tables (calls r.1) = launched_tables (calls wk) /\
  (exists j, batch_q_ r.1 = drop j (batch_q_ wk)) /\
  h_dev_ptrs_ r.1 = h_dev_ptrs_ wk /\
  cur_batch_idx_ r.1 = cur_batch_idx_ wk /\
  ttl_bytes_recv_ r.1 = ttl_bytes_recv_ w.
Proof.
  intros Hq Hk Hmid Hfull H4 r.
  assert (H4' : length (batch_q_ (after_reclaim E wk)) = 4%nat)
    by (unfold num_concurrent in H4; lia).
  destruct (after_reclaim_frame E wk) as (_ & F2 & F3 & _ & _ & _ & F7 & _).
  destruct (after_reclaim_calls E wk) as (polls & Hcalls & Hpolls).
  assert (Hrun : r = (emit (after_reclaim E wk) [HOLOSCAN_LOG_ERROR fell_behind_msg []],
                      FellBehind)).
  { subst r. rewrite compute_data_burst by done.
    replace (Z.to_nat (adv_net_get_num_pkts burst))
      with (k + S (Z.to_nat (adv_net_get_num_pkts burst) - S k))%nat by lia.
    unfold mid_compute in *. rewrite pkt_loop_split, Hmid. simpl.
    unfold loop_body. rewrite launch_if_full_reached by done.
    by rewrite launch_batch_saturated. }
  rewrite Hrun. simpl fst. simpl snd.
  split; [done|]. split; [|split; [|split; [|split; [|split]]]].
  - exists polls. simpl. by rewrite Hcalls, app_assoc.
  - simpl. rewrite Hcalls, !launched_tables_app.
    rewrite (launched_tables_polls polls) by done. simpl. by rewrite !app_nil_r.
  - simpl. apply after_reclaim_queue.
  - simpl. exact F7.
  - simpl. exact F2.
  - simpl. rewrite F3.
    pose proof (pkt_loop_totals E k 0 burst (counted E w burst)) as [_ Lb].
    unfold mid_compute in Hmid. rewrite Hmid in Lb. simpl fst in Lb. rewrite Lb.
    apply counted_totals.
Qed.

(** A run of C1 (amended): batches of one packet, a device that reclaims
    nothing, and a burst of six packets; the sixth packet meets four batches
    in flight. *)
Lemma saturation_logs_and_returns_witness :
  (compute (env_busy 0) (initialize 1 9100 42) (Some (sample_burst 1 6))).2 = FellBehind /\
  launched_tables
    (calls (compute (env_busy 0) (initialize 1 9100 42) (Some (sample_burst 1 6))).1)
  = [[1042]; [1142]; [1242]; [1342]] /\
  h_dev_ptrs_ (compute (env_busy 0) (initialize 1 9100 42) (Some (sample_burst 1 6))).1
  = [[1442]; [1142]; [1242]; [1342]].
Proof.
  destruct (saturation_logs_and_returns
              (env_busy 0) (initialize 1 9100 42) (sample_burst 1 6) 5
              (mid_compute (env_busy 0) (initialize 1 9100 42) (sample_burst 1 6) 5).1)
    as (Hc & _).
  - by vm_compute.
  - vm_compute. lia.
  - vm_compute. reflexivity.
  - by vm_compute.
  - vm_compute. reflexivity.
  - split; [exact Hc|]. vm_compute. split; reflexivity.
Defined.

(** C1, as stated, fails: the operator goes on after the saturation
    return.  With batches of one packet and a device that reclaims nothing,
    a burst of six packets ends in the saturation return; the next burst, of
    one packet, is processed to its end: its packet is counted, and its
    payload pointer is stored in the table of slot 0. *)
Lemma packets_are_processed_after_saturation :
  let r1 := compute (env_busy 0) (initialize 1 9100 42) (Some (sample_burst 1 6)) in
  let r2 := compute (env_busy 0) r1.1 (Some (sample_burst 1 1)) in
  r1.2 = FellBehind /\
  ttl_pkts_recv_ r1.1 = 6 /\
  h_dev_ptrs_ r1.1 = [[1442]; [1142]; [1242]; [1342]] /\
  r2.2 = Completed /\
  ttl_pkts_recv_ r2.1 = 7 /\
  ttl_bytes_recv_ r2.1 = 100 /\
  h_dev_ptrs_ r2.1 = [[1042]; [1142]; [1242]; [1342]].
Proof. vm_compute. repeat split; reflexivity. Qed.

(** ** Launches and completion markers *)

Lemma no_launch_then_record cs :
  Forall (fun c => is_launch c = false) cs -> launch_then_record cs.
Proof.
  intros Hcs pre post out in_ len n s ->.
  apply Forall_app in Hcs as [_ Hcs]. inversion Hcs; subst. discriminate.
Qed.

Lemma launch_then_record_app a b :
  launch_then_record a -> launch_then_record b -> launch_then_record (a ++ b).
Proof.
  intros Ha Hb pre post out in_ len n s Heq.
  apply app_eq_app in Heq as [l [[-> Hl]|[-> ->]]].
  - destruct l as [|c l].
    + simpl in Hl. subst b. apply (Hb [] post out in_ len n s eq_refl).
    + inversion Hl; subst.
      destruct (Ha pre l out in_ len n s eq_refl) as (i & post' & -> & ->).
      exists i, (post' ++ b). done.
  - apply (Hb l post out in_ len n s eq_refl).
Qed.

Lemma launch_calls_debug E w :
  DEBUG_CUDA_TIMES E = 1 ->
  launch_calls E w
  = [cudaEventRecord (events_start_ (cur_batch_idx_ w)) (streams_ (cur_batch_idx_ w));
     simple_packet_reorder
       (full_batch_data_d_ (cur_batch_idx_ w))
       (Some (cur_batch_idx_ w,
              take (Z.to_nat (batch_size_ w)) (table_of (h_dev_ptrs_ w) (cur_batch_idx_ w))))
       (nom_payload_size_ w) (batch_size_ w) (streams_ (cur_batch_idx_ w));
     cudaEventRecord (events_ (cur_batch_idx_ w)) (streams_ (cur_batch_idx_ w));
     cudaEventSynchronize (events_ (cur_batch_idx_ w));
     cudaEventElapsedTime (events_start_ (cur_batch_idx_ w)) (events_ (cur_batch_idx_ w));
     HOLOSCAN_LOG_INFO debug_times_msg [aggr_pkts_recv_ w]].
Proof. intros Hd. unfold launch_calls. by rewrite Hd. Qed.

Lemma launch_calls_release E w :
  DEBUG_CUDA_TIMES E <> 1 ->
  launch_calls E w
  = [simple_packet_reorder
       (full_batch_data_d_ (cur_batch_idx_ w))
       (Some (cur_batch_idx_ w,
              take (Z.to_nat (batch_size_ w)) (table_of (h_dev_ptrs_ w) (cur_batch_idx_ w))))
       (nom_payload_size_ w) (batch_size_ w) (streams_ (cur_batch_idx_ w))].
Proof.
  intros Hd. unfold launch_calls.
  destruct (DEBUG_CUDA_TIMES E =? 1) eqn:Hz; [lia|done].
Qed.

Lemma launch_calls_debug_recorded E w :
  DEBUG_CUDA_TIMES E = 1 -> launch_then_record (launch_calls E w).
Proof.
  intros Hd. rewrite launch_calls_debug by done.
  intros pre post out in_ len n s Heq.
  destruct pre as [|c0 pre]; [discriminate|].
  destruct pre as [|c1 pre].
  - inversion Heq; subst. eexists (cur_batch_idx_ w), _. split; reflexivity.
  - do 5 (destruct pre as [|? pre]; [discriminate|]).
    destruct pre; discriminate.
Qed.

(** The calls of [compute] around a launch, by build.  With
    [DEBUG_CUDA_TIMES == 1] every kernel launch of [compute] is directly
    followed by the record of the completion marker of the launched slot on
    the stream of that slot, and the timing code then waits for the marker.
    In the other builds [compute] makes no blocking wait.
    In every build the record pushed after a launch carries the completion
    marker of the launched slot, and [free_batch_queue] observes completion
    through polls of the markers only. *)
Lemma launch_calls_of_compute_by_build
  (E : Env) (w : Op) (burst_opt : option AdvNetBurstParams) :
  (DEBUG_CUDA_TIMES E = 1 -> emits launch_then_record w (compute E w burst_opt).1) /\
  (DEBUG_CUDA_TIMES E <> 1 ->
   emits (Forall (fun c => is_blocking_wait c = false)) w (compute E w burst_opt).1) /\
  (length (batch_q_ (after_reclaim E w)) <> 4%nat ->
   exists q, batch_q_ (launch_batch E w).1 = q ++ [pushed_record w] /\
             evt (pushed_record w) = events_ (cur_batch_idx_ w)) /\
  emits (Forall (fun c => is_poll c = true /\ is_blocking_wait c = false))
        w (free_batch_queue E w).
Proof.
  split; [|split; [|split]].
  - intros Hd. apply compute_emits.
    + by apply no_launch_then_record.
    + apply launch_then_record_app.
    + intros cs Hcs. apply no_launch_then_record.
      eapply Forall_impl; [exact Hcs|]. intros c Hc. by destruct c.
    + intros m a. apply no_launch_then_record. by repeat constructor.
    + intros r. apply no_launch_then_record. by repeat constructor.
    + intros c. apply no_launch_then_record. by repeat constructor.
    + intros w0. by apply launch_calls_debug_recorded.
  - intros Hd. apply compute_emits.
    + constructor.
    + intros a b Ha Hb. apply Forall_app. done.
    + intros cs Hcs. eapply Forall_impl; [exact Hcs|]. intros c Hc. by destruct c.
    + intros m a. by repeat constructor.
    + intros r. by repeat constructor.
    + intros c. by repeat constructor.
    + intros w0. rewrite launch_calls_release by done. by repeat constructor.
  - intros H4. destruct (launch_batch_launched E w H4) as (_ & _ & Hq & _).
    by exists (batch_q_ (after_reclaim E w)).
  - rewrite free_batch_queue_unfold. eexists. split; [done|].
    eapply Forall_impl; [apply free_batch_queue_loop_polls|].
    intros c Hc. by destruct c.
Qed.

(** C2, the failing input in either build.  One packet fills a batch of
    one, the second packet of the burst launches it.  Without
    [DEBUG_CUDA_TIMES] the launch is followed by [cudaGetLastError] and no
    marker is recorded; with [DEBUG_CUDA_TIMES == 1] the record is followed
    by the blocking [cudaEventSynchronize] of the timing code. *)
Lemma launch_without_record_or_with_wait :
  let w0 := initialize 1 9100 42 in
  drop (length (calls w0))
       (calls (compute (env_ready 0) w0 (Some (sample_burst 1 2))).1)
  = [simple_packet_reorder (Some 0) (Some (0, [1042])) 9058 1 (Stream 0);
     cudaGetLastError cudaSuccess] /\
  drop (length (calls w0))
       (calls (compute (env_ready 1) w0 (Some (sample_burst 1 2))).1)
  = [cudaEventRecord (EventStart 0) (Stream 0);
     simple_packet_reorder (Some 0) (Some (0, [1042])) 9058 1 (Stream 0);
     cudaEventRecord (Event 0) (Stream 0);
     cudaEventSynchronize (Event 0);
     cudaEventElapsedTime (EventStart 0) (Event 0);
     HOLOSCAN_LOG_INFO debug_times_msg [0];
     cudaGetLastError cudaSuccess].
Proof. vm_compute. split; reflexivity. Qed.

(** ** What the in-flight records hold *)

Lemma records_empty_free E w : records_empty w -> records_empty (free_batch_queue E w).
Proof.
  intros (Hc & Hi & Hq). unfold records_empty.
  destruct (free_batch_queue_frame E w) as (-> & -> & _).
  rewrite free_batch_queue_unfold. simpl.
  destruct (free_batch_queue_loop_spec E (batch_q_ w) (clock w)) as (k & _ & -> & _).
  simpl. split; [exact Hc|]. split; [exact Hi|]. by apply Forall_drop.
Qed.

Lemma records_empty_launch E w : records_empty w -> records_empty (launch_batch E w).1.
Proof.
  intros (Hc & Hi & Hq). unfold records_empty.
  destruct (after_reclaim_frame E w) as (F1 & F2 & _).
  destruct (after_reclaim_queue E w) as (k & Hk).
  destruct (decide (length (batch_q_ (after_reclaim E w)) = 4%nat)) as [H4|H4].
  - rewrite launch_batch_saturated by done. simpl.
    rewrite F1, F2, Hk. split; [done|]. split; [done|]. by apply Forall_drop.
  - destruct (launch_batch_launched E w H4) as (_ & _ & Q & C & I & _).
    rewrite Q, C, I, Hk. destruct Hc as [Hn Hb].
    split; [by split|]. split.
    + destruct (is_cudaSuccess _); [|done].
      unfold num_concurrent in *.
      pose proof (Z.rem_bound_pos (cur_batch_idx_ w + 1) 4). lia.
    + apply Forall_app. split; [by apply Forall_drop|].
      constructor; [|constructor]. split; [by split|].
      by exists (cur_batch_idx_ w).
Qed.

(** C9 (amended): the operator never stores a burst reference.  In every
    state reached from [initialize] each record of the tracker has a burst
    count of zero and an array of null burst references, and carries the
    completion marker of one of the slots; a record leaves the tracker only
    in [free_batch_queue], from the front, after a poll of its marker that
    returned [cudaSuccess]. *)
Theorem in_flight_records_retain_no_burst
  (E : Env) (batch_size max_packet_size header_size : Z)
  (inputs : list (option AdvNetBurstParams)) :
  let w := (run E (initialize batch_size max_packet_size header_size) inputs).1 in
  Forall (fun b => holds_no_burst b /\ marks_a_slot b) (batch_q_ w) /\
  (exists k : nat,
     batch_q_ (free_batch_queue E w) = drop k (batch_q_ w) /\
     forall i b, (i < k)%nat -> batch_q_ w !! i = Some b ->
                 event_status E (clock w + i) (evt b) = cudaSuccess) /\
  (forall w0 : Op,
     length (batch_q_ (after_reclaim E w0)) <> 4%nat ->
     batch_q_ (launch_batch E w0).1 = batch_q_ (after_reclaim E w0) ++ [pushed_record w0] /\
     bursts (pushed_record w0) = bursts (cur_batch_ w0) /\
     num_bursts (pushed_record w0) = num_bursts (cur_batch_ w0)).
Proof.
  intros w.
  assert (Hw : records_empty w).
  { subst w. apply (run_invariant E records_empty); try done.
    - apply records_empty_free.
    - apply records_empty_launch. }
  split; [apply Hw|]. split.
  - destruct (free_batch_queue_loop_spec E (batch_q_ w) (clock w)) as (k & _ & Heq & Hsat & _).
    exists k. rewrite free_batch_queue_unfold, Heq. done.
  - intros w0 H4. destruct (launch_batch_launched E w0 H4) as (_ & _ & Hq & _). done.
Qed.

(** C9, as stated, fails: a pushed record retains no burst.  The second
    packet of a burst launches the batch made of its first packet; the
    record pushed for that batch counts zero bursts and its burst array
    holds null references only. *)
Lemma pushed_record_retains_no_burst :
  let r := compute (env_busy 0) (initialize 1 9100 42) (Some (sample_burst 1 2)) in
  launched_tables (calls r.1) = [[1042]] /\
  map evt (batch_q_ r.1) = [Event 0] /\
  map num_bursts (batch_q_ r.1) = [0] /\
  map bursts (batch_q_ r.1) = [replicate 10 None].
Proof. vm_compute. repeat split; reflexivity. Qed.

(** ** Writing into a slot that is in flight *)

(** C3 fails on the code: the saturation check lets a fourth batch be
    launched, after which the current slot wraps around to the slot of the
    oldest batch in flight.  With batches of one packet and a device that
    reclaims nothing, the fifth packet of a burst launches slot 3, finds
    slot 0 still in the tracker, and is stored in the table of slot 0. *)
Lemma slot_written_while_in_flight :
  let E := env_busy 0 in
  let w4 := (mid_compute E (initialize 1 9100 42) (sample_burst 1 5) 4).1 in
  let w5 := (launch_if_full E w4).1 in
  (launch_if_full E w4).2 = Next /\
  cur_batch_idx_ w5 = 0 /\
  map evt (batch_q_ w5) = [Event 0; Event 1; Event 2; Event 3] /\
  in_flight w5 (cur_batch_idx_ w5) /\
  h_dev_ptrs_ w5 = [[1042]; [1142]; [1242]; [1342]] /\
  loop_body E w4 (sample_burst 1 5) 4 = (store_pkt w5 1442, Next) /\
  h_dev_ptrs_ (store_pkt w5 1442) = [[1442]; [1142]; [1242]; [1342]] /\
  map evt (batch_q_ (store_pkt w5 1442)) = [Event 0; Event 1; Event 2; Event 3].
Proof.
  vm_compute. repeat split; try reflexivity.
  eexists. split; [left; reflexivity|reflexivity].
Qed.

(** ** Batches launched by a run without saturation *)

Lemma table_of_length B t slot :
  length t = 4%nat -> Forall (fun r => length r = Z.to_nat B) t ->
  0 <= slot < num_concurrent -> length (table_of t slot) = Z.to_nat B.
Proof.
  intros Hl Ht Hs. unfold table_of, num_concurrent in *.
  destruct (0 <=? slot) eqn:H0; [|lia].
  destruct (lookup_lt_is_Some_2 t (Z.to_nat slot)) as [r Hr]; [lia|].
  rewrite Hr. simpl.
  exact (Forall_lookup_1 (fun r => length r = Z.to_nat B) t (Z.to_nat slot) r Ht Hr).
Qed.

Lemma store_ptr_table t slot idx p :
  0 <= slot -> 0 <= idx -> (Z.to_nat slot < length t)%nat ->
  table_of (store_ptr t slot idx p) slot = <[Z.to_nat idx := p]> (table_of t slot).
Proof.
  intros Hs Hi Hl. unfold store_ptr.
  destruct (0 <=? slot) eqn:H0; [|lia]. destruct (0 <=? idx) eqn:H1; [|lia]. simpl.
  unfold table_of at 1. rewrite H0. by rewrite list_lookup_insert_eq.
Qed.

Lemma store_ptr_length t slot idx p : length (store_ptr t slot idx p) = length t.
Proof.
  unfold store_ptr. destruct ((0 <=? slot) && (0 <=? idx)); [|done].
  apply length_insert.
Qed.

Lemma store_ptr_rows (n : nat) t slot idx p :
  Forall (fun r => length r = n) t -> length (table_of t slot) = n ->
  Forall (fun r => length r = n) (store_ptr t slot idx p).
Proof.
  intros Ht Hr. unfold store_ptr. destruct ((0 <=? slot) && (0 <=? idx)); [|done].
  apply Forall_insert; [done|]. by rewrite length_insert.
Qed.

Lemma launched_tables_launch_calls E w :
  launched_tables (launch_calls E w)
  = [take (Z.to_nat (batch_size_ w)) (table_of (h_dev_ptrs_ w) (cur_batch_idx_ w))].
Proof. unfold launch_calls. by destruct (DEBUG_CUDA_TIMES E =? 1). Qed.

Lemma free_batch_queue_launched E w :
  launched_tables (calls (free_batch_queue E w)) = launched_tables (calls w).
Proof.
  rewrite free_batch_queue_unfold. simpl. rewrite launched_tables_app.
  rewrite (launched_tables_polls _ (free_batch_queue_loop_polls E _ _)).
  apply app_nil_r.
Qed.

Lemma filling_free E B hs ptrs w :
  filling B hs ptrs w -> filling B hs ptrs (free_batch_queue E w).
Proof.
  unfold filling, tables_ok, accounted, pending.
  destruct (free_batch_queue_frame E w) as (_ & -> & _ & _ & -> & _ & -> & -> & _ & ->).
  by rewrite free_batch_queue_launched.
Qed.

Lemma filling_room B hs ptrs w :
  filling B hs ptrs w -> aggr_pkts_recv_ w < B -> has_room B hs ptrs w.
Proof. intros (Ht & Ha & Hr & _) Hlt. split; [exact Ht|]. split; [exact Ha|]. lia. Qed.

(** The launch of a full table accounts for its pointers and leaves an
    empty table current. *)
Lemma filling_launch E B hs ptrs w w1 :
  0 < B ->
  filling B hs ptrs w -> B <= aggr_pkts_recv_ w ->
  launch_batch E w = (w1, Next) ->
  has_room B hs ptrs w1.
Proof.
  intros HB ((Hb & Hh & Hl & Hrows & Hcur) & (Hla & Hacc) & Hr & _) Hfull Hrun.
  destruct (decide (length (batch_q_ (after_reclaim E w)) = 4%nat)) as [H4|H4].
  { rewrite launch_batch_saturated in Hrun by done. discriminate. }
  destruct (launch_batch_launched E w H4)
    as (Hctl & Hcalls & _ & _ & Hidx & Haggr & Htab & _ & _ & Hbs & Hhs & _).
  rewrite Hrun in Hctl, Hcalls, Hidx, Haggr, Htab, Hbs, Hhs. simpl in *.
  destruct (is_cudaSuccess (last_error E (clock (after_reclaim E w)))); [|discriminate].
  destruct (after_reclaim_frame E w) as (_ & F2 & _ & _ & _ & _ & F7 & F8 & _).
  assert (Hlaunched : launched_tables (calls w1)
                      = launched_tables (calls w)
                        ++ [take (Z.to_nat B) (table_of (h_dev_ptrs_ w) (cur_batch_idx_ w))]).
  { rewrite Hcalls, !launched_tables_app, launched_tables_launch_calls.
    unfold after_reclaim at 1. rewrite free_batch_queue_launched. simpl.
    by rewrite F2, F7, F8, Hb. }
  assert (Hrow : length (table_of (h_dev_ptrs_ w) (cur_batch_idx_ w)) = Z.to_nat B)
    by (by apply table_of_length).
  assert (Hcur1 : 0 <= cur_batch_idx_ w1 < num_concurrent).
  { rewrite Hidx. unfold num_concurrent in *.
    pose proof (Z.rem_bound_pos (cur_batch_idx_ w + 1) 4). lia. }
  split; [|split].
  - unfold tables_ok. rewrite Hbs, Hhs, Htab. done.
  - unfold accounted, pending. rewrite Hlaunched, Haggr. simpl. split.
    + apply Forall_app. split; [done|]. constructor; [|constructor].
      rewrite length_take. lia.
    + rewrite concat_app. simpl. rewrite !app_nil_r.
      rewrite <- Hacc. unfold pending. f_equal. f_equal. lia.
  - lia.
Qed.

(** The store of a round extends the pending pointers by the payload
    pointer of the packet. *)
Lemma has_room_store B hs ptrs w p :
  B < 2 ^ 32 -> has_room B hs ptrs w -> filling B hs (ptrs ++ [p]) (store_pkt w p).
Proof.
  intros HB ((Hb & Hh & Hl & Hrows & Hcur) & (Hla & Hacc) & Hr).
  assert (Hrow : length (table_of (h_dev_ptrs_ w) (cur_batch_idx_ w)) = Z.to_nat B)
    by (by apply table_of_length).
  assert (Hw : wrap64 (aggr_pkts_recv_ w + 1) = aggr_pkts_recv_ w + 1)
    by (apply wrap64_small; lia).
  unfold filling, tables_ok, accounted, pending. simpl. rewrite Hw.
  unfold num_concurrent in *.
  rewrite store_ptr_length, store_ptr_table by lia.
  repeat split; try done; try lia.
  - by apply store_ptr_rows.
  - replace (Z.to_nat (aggr_pkts_recv_ w + 1)) with (S (Z.to_nat (aggr_pkts_recv_ w))) by lia.
    rewrite (take_S_r _ _ p) by (apply list_lookup_insert_eq; lia).
    rewrite take_insert_ge by lia. rewrite app_assoc. f_equal. exact Hacc.
Qed.

Lemma filling_loop_body E B hs ptrs w burst idx w' :
  0 < B < 2 ^ 32 ->
  filling B hs ptrs w ->
  loop_body E w burst idx = (w', Next) ->
  filling B hs (ptrs ++ [adv_net_get_pkt_ptr burst idx + hs]) w'.
Proof.
  intros HB Hw Hrun. unfold loop_body in Hrun.
  assert (Hbs : batch_size_ w = B) by apply Hw.
  destruct (Z_lt_le_dec (aggr_pkts_recv_ w) B) as [Hlt|Hge].
  - rewrite launch_if_full_below in Hrun by lia. inversion Hrun; subst w'.
    unfold payload_ptr. replace (header_size_ w) with hs by (symmetry; apply Hw).
    apply has_room_store; [lia|]. by apply filling_room.
  - rewrite launch_if_full_reached in Hrun by lia.
    destruct (launch_batch E w) as [w1 [| |c]] eqn:Hl; try discriminate.
    inversion Hrun; subst w'.
    pose proof (filling_launch E B hs ptrs w w1 ltac:(lia) Hw Hge Hl) as Hroom.
    unfold payload_ptr. replace (header_size_ w1) with hs by (symmetry; apply Hroom).
    apply has_room_store; [lia|done].
Qed.

Lemma filling_pkt_loop E B hs burst n :
  0 < B < 2 ^ 32 ->
  forall (i0 : nat) ptrs w w',
    filling B hs ptrs w ->
    pkt_loop E n (Z.of_nat i0) burst w = (w', Next) ->
    filling B hs
      (ptrs ++ map (fun i => adv_net_get_pkt_ptr burst (Z.of_nat i) + hs) (seq i0 n)) w'.
Proof.
  intros HB. induction n as [|n IH]; intros i0 ptrs w w' Hw Hrun; simpl in Hrun.
  - inversion Hrun; subst. simpl. by rewrite app_nil_r.
  - destruct (loop_body E w burst (Z.of_nat i0)) as [w1 [| |c]] eqn:Hb; try discriminate.
    pose proof (filling_loop_body E B hs ptrs w burst _ w1 HB Hw Hb) as Hw1.
    replace (Z.of_nat i0 + 1) with (Z.of_nat (S i0)) in Hrun by lia.
    specialize (IH (S i0) _ w1 w' Hw1 Hrun).
    simpl. by rewrite <- app_assoc in IH.
Qed.

Lemma filling_compute E B hs ptrs w burst w' :
  0 < B < 2 ^ 32 ->
  filling B hs ptrs w ->
  adv_net_get_q_id burst <> 0 ->
  compute E w (Some burst) = (w', Completed) ->
  filling B hs (ptrs ++ burst_ptrs hs burst) w'.
Proof.
  intros HB Hw Hq Hrun. rewrite compute_data_burst in Hrun by done.
  unfold mid_compute in Hrun.
  destruct (pkt_loop E _ 0 burst (counted E w burst)) as [w1 [| |c]] eqn:Hl;
    try discriminate.
  inversion Hrun; subst w'.
  assert (Hc : filling B hs ptrs (counted E w burst)).
  { unfold counted. apply (filling_free E) in Hw. exact Hw. }
  apply (filling_pkt_loop E B hs burst _ HB 0%nat ptrs _ w1 Hc) in Hl.
  exact Hl.
Qed.

Lemma run_cons E w i rest :
  run E w (i :: rest)
  = match compute E w i with
    | (w', Exited _) => (w', false)
    | (w', _) => run E w' rest
    end.
Proof. reflexivity. Qed.

Lemma run_outcomes_cons E w i rest :
  run_outcomes E w (i :: rest)
  = match compute E w i with
    | (w', Exited c) => [Exited c]
    | (w', o) => o :: run_outcomes E w' rest
    end.
Proof. reflexivity. Qed.

Lemma filling_run E B hs :
  0 < B < 2 ^ 32 ->
  forall bs ptrs w,
    filling B hs ptrs w ->
    Forall (fun b => adv_net_get_q_id b <> 0) bs ->
    Forall (fun o => o = Completed) (run_outcomes E w (map Some bs)) ->
    filling B hs (ptrs ++ arrival_ptrs hs bs) (run E w (map Some bs)).1.
Proof.
  intros HB. induction bs as [|b bs IH]; intros ptrs w Hw Hq Hout.
  - unfold arrival_ptrs. simpl. by rewrite app_nil_r.
  - inversion Hq as [|? ? Hqb Hqs]; subst.
    change (map Some (b :: bs)) with (Some b :: map Some bs) in *.
    rewrite run_outcomes_cons in Hout. rewrite run_cons.
    destruct (compute E w (Some b)) as [w1 o] eqn:Hc.
    assert (Ho : o = Completed /\ Forall (fun o => o = Completed)
                                         (run_outcomes E w1 (map Some bs))).
    { destruct o; inversion Hout; subst; try discriminate. done. }
    destruct Ho as [-> Hrest].
    pose proof (filling_compute E B hs ptrs w b w1 HB Hw Hqb Hc) as Hw1.
    specialize (IH _ w1 Hw1 Hqs Hrest).
    unfold arrival_ptrs in *. rewrite map_cons, concat_cons. by rewrite app_assoc.
Qed.

Lemma filling_initialize B mps hs : 0 <= B -> filling B hs [] (initialize B mps hs).
Proof.
  intros HB. unfold filling, tables_ok, accounted, pending, num_concurrent. simpl.
  repeat split; try done; try lia.
  - repeat constructor; apply length_replicate.
  - by left.
Qed.

Lemma length_concat_uniform (n : nat) (ls : list (list Z)) :
  Forall (fun t => length t = n) ls -> length (concat ls) = (length ls * n)%nat.
Proof.
  induction 1 as [|t ls Ht _ IH]; [done|].
  simpl. rewrite length_app, IH, Ht. lia.
Qed.

(** In a concatenation of tables of [n] pointers each, table [k] is the
    [k]-th block of [n] consecutive pointers. *)
Lemma concat_lookup_block (n : nat) (ls : list (list Z)) (rest : list Z) :
  Forall (fun t => length t = n) ls ->
  forall k t, ls !! k = Some t -> t = take n (drop (k * n) (concat ls ++ rest)).
Proof.
  induction 1 as [|t0 ls Ht _ IH]; intros k t Hk; [done|].
  destruct k as [|k]; simpl in Hk.
  - inversion Hk; subst t0. simpl. rewrite <- app_assoc, drop_0.
    by rewrite take_app_length'.
  - simpl concat. rewrite <- app_assoc.
    replace (S k * n)%nat with (length t0 + k * n)%nat by lia.
    rewrite drop_app_add. by apply IH.
Qed.

Lemma filling_pending_length B hs ptrs w :
  filling B hs ptrs w -> Z.of_nat (length (pending w)) = aggr_pkts_recv_ w.
Proof.
  intros ((Hb & Hh & Hl & Hrows & Hcur) & _ & Hr & _).
  unfold pending. rewrite length_take.
  rewrite (table_of_length B) by done. lia.
Qed.

(** The number of tables launched when [ptrs] have been received. *)
Lemma filling_count B hs ptrs w :
  0 < B -> filling B hs ptrs w ->
  Z.of_nat (length ptrs)
  = Z.of_nat (length (launched_tables (calls w))) * B + aggr_pkts_recv_ w /\
  Z.of_nat (length (launched_tables (calls w)))
  = Z.max 0 ((Z.of_nat (length ptrs) + B - 1) / B - 1).
Proof.
  intros HB Hw. pose proof (filling_pending_length B hs ptrs w Hw) as Hp.
  destruct Hw as (_ & (Hla & Hacc) & Hr & Hne).
  assert (Hlen : Z.of_nat (length ptrs)
                 = Z.of_nat (length (launched_tables (calls w))) * B + aggr_pkts_recv_ w).
  { rewrite <- Hacc, length_app, (length_concat_uniform (Z.to_nat B)) by done. lia. }
  split; [done|].
  set (L := Z.of_nat (length (launched_tables (calls w)))) in *.
  assert (HL : 0 <= L) by lia.
  destruct Hne as [-> | H1].
  - simpl in Hlen. assert (L = 0) by nia. subst L.
    assert (Hd : (0 + B - 1) / B = 0) by (apply Z.div_small; lia).
    simpl in *. lia.
  - rewrite Hlen.
    replace (L * B + aggr_pkts_recv_ w + B - 1)
      with ((aggr_pkts_recv_ w - 1) + (L + 1) * B) by lia.
    rewrite Z.div_add by lia. rewrite Z.div_small by lia. lia.
Qed.

(** C5 (amended): take the fresh operator with a batch size [B > 0], any
    sequence of data-queue bursts with [P] packets in all, and a run in
    which every [compute] goes through its whole burst (no saturation
    return, no exit).  A full table is launched when the next packet
    arrives, so the run launches max(0, ceil(P/B) - 1) batches; launched
    table number [k] holds exactly the [B] payload pointers of the packets
    [k*B .. k*B + B - 1] in arrival order, and the last 1 to [B] pointers
    are pending in the table of the current slot. *)
Theorem launched_batches_of_a_run
  (E : Env) (B max_packet_size hs : Z) (bs : list AdvNetBurstParams) :
  0 < B < 2 ^ 32 ->
  Forall (fun b => adv_net_get_q_id b <> 0) bs ->
  Forall (fun o => o = Completed)
         (run_outcomes E (initialize B max_packet_size hs) (map Some bs)) ->
  let w := (run E (initialize B max_packet_size hs) (map Some bs)).1 in
  let ptrs := arrival_ptrs hs bs in
  let P := Z.of_nat (length ptrs) in
  Z.of_nat (length (launched_tables (calls w))) = Z.max 0 ((P + B - 1) / B - 1) /\
  (forall k t, launched_tables (calls w) !! k = Some t ->
               Z.of_nat (length t) = B /\
               t = take (Z.to_nat B) (drop (k * Z.to_nat B) ptrs)) /\
  pending w = drop (length (launched_tables (calls w)) * Z.to_nat B) ptrs /\
  (0 < P -> 1 <= Z.of_nat (length (pending w)) <= B).
Proof.
  intros HB Hq Hout w ptrs P.
  assert (Hw : filling B hs ptrs w).
  { pose proof (filling_run E B hs HB bs [] (initialize B max_packet_size hs)
                  (filling_initialize B max_packet_size hs ltac:(lia)) Hq Hout) as H.
    exact H. }
  pose proof (filling_count B hs ptrs w ltac:(lia) Hw) as [Hlen Hcount].
  pose proof (filling_pending_length B hs ptrs w Hw) as Hpl.
  destruct Hw as (_ & (Hla & Hacc) & Hr & Hne).
  split; [exact Hcount|]. split; [|split].
  - intros k t Hk. split.
    + pose proof (Forall_lookup_1 _ _ _ _ Hla Hk) as Ht. simpl in Ht. lia.
    + rewrite <- Hacc. by apply concat_lookup_block.
  - rewrite <- Hacc. rewrite drop_app_length'; [done|].
    by rewrite (length_concat_uniform (Z.to_nat B)).
  - intros HP. rewrite Hpl. destruct Hne as [Hnil|H1]; [|lia].
    subst P. rewrite Hnil in HP. simpl in HP. lia.
Qed.

(** A run of C5 (amended): batches of two, bursts of three and four
    packets. *)
Lemma launched_batches_of_a_run_witness :
  launched_tables
    (calls (run (env_ready 0) (initialize 2 9100 42)
                (map Some [sample_burst 1 3; sample_burst 2 4])).1) !! 1%nat
  = Some [1242; 1042] /\
  Z.of_nat (length (launched_tables
    (calls (run (env_ready 0) (initialize 2 9100 42)
                (map Some [sample_burst 1 3; sample_burst 2 4])).1))) = 3.
Proof.
  destruct (launched_batches_of_a_run (env_ready 0) 2 9100 42
              [sample_burst 1 3; sample_burst 2 4]) as (Hn & Hk & _).
  - lia.
  - repeat constructor; by vm_compute.
  - vm_compute. repeat constructor.
  - split; [by vm_compute|]. rewrite Hn. by vm_compute.
Defined.

(** C5, as stated, fails: five packets with batches of two launch two
    batches, and ceil(5/2) = 3; the fifth packet is pending. *)
Lemma five_packets_launch_two_batches :
  let r := run (env_ready 0) (initialize 2 9100 42) [Some (sample_burst 1 5)] in
  run_outcomes (env_ready 0) (initialize 2 9100 42) [Some (sample_burst 1 5)] = [Completed] /\
  length (arrival_ptrs 42 [sample_burst 1 5]) = 5%nat /\
  launched_tables (calls r.1) = [[1042; 1142]; [1242; 1342]] /\
  pending r.1 = [1442] /\
  (5 + 2 - 1) / 2 = 3.
Proof. vm_compute. repeat split; reflexivity. Qed.

(** ** Rounds that cannot saturate *)

Lemma launch_batch_launched_tables E w :
  length (batch_q_ (after_reclaim E w)) <> 4%nat ->
  launched_tables (calls (launch_batch E w).1)
  = launched_tables (calls w)
    ++ [take (Z.to_nat (batch_size_ w)) (table_of (h_dev_ptrs_ w) (cur_batch_idx_ w))].
Proof.
  intros H4. destruct (launch_batch_launched E w H4) as (_ & Hcalls & _).
  destruct (after_reclaim_frame E w) as (_ & F2 & _ & _ & _ & _ & F7 & F8 & _).
  rewrite Hcalls, !launched_tables_app, launched_tables_launch_calls.
  unfold after_reclaim at 1. rewrite free_batch_queue_launched. simpl.
  rewrite F2, F7, F8. f_equal.
  destruct (is_cudaSuccess _); by rewrite ?app_nil_r.
Qed.

Lemma tracked_free E w : tracked w -> tracked (free_batch_queue E w).
Proof.
  unfold tracked. rewrite free_batch_queue_launched.
  pose proof (free_batch_queue_depth E w). lia.
Qed.

(** A round of the packet loop of an operator that has received at most
    [4 * B] packets, on a device that reports no error, falls through. *)
Lemma round_without_saturation E B hs ptrs w burst idx :
  0 < B < 2 ^ 32 ->
  (forall n, last_error E n = cudaSuccess) ->
  filling B hs ptrs w -> tracked w ->
  Z.of_nat (length ptrs) <= 4 * B ->
  exists w', loop_body E w burst idx = (w', Next) /\ tracked w'.
Proof.
  intros HB Herr Hw Ht HP. unfold loop_body.
  assert (Hbs : batch_size_ w = B) by apply Hw.
  destruct (Z_lt_le_dec (aggr_pkts_recv_ w) B) as [Hlt|Hge].
  - rewrite launch_if_full_below by lia. eexists. split; [done|]. exact Ht.
  - rewrite launch_if_full_reached by lia.
    destruct (filling_count B hs ptrs w ltac:(lia) Hw) as [Hlen _].
    assert (Hr : 0 <= aggr_pkts_recv_ w <= B) by apply Hw.
    pose proof (after_reclaim_depth E w) as Hd. unfold tracked in Ht.
    assert (H4 : length (batch_q_ (after_reclaim E w)) <> 4%nat) by nia.
    destruct (launch_batch_launched E w H4) as (Hctl & _ & Hq & _).
    pose proof (launch_batch_launched_tables E w H4) as Hla.
    rewrite Herr in Hctl. simpl in Hctl.
    destruct (launch_batch E w) as [w1 ctl]. simpl in *. subst ctl.
    eexists. split; [done|]. unfold tracked. simpl.
    rewrite Hq, Hla, !length_app. simpl. lia.
Qed.

Lemma pkt_loop_without_saturation E B hs burst n :
  0 < B < 2 ^ 32 ->
  (forall k, last_error E k = cudaSuccess) ->
  forall (i0 : nat) ptrs w,
    filling B hs ptrs w -> tracked w ->
    Z.of_nat (length ptrs) + Z.of_nat n <= 4 * B + 1 ->
    exists w', pkt_loop E n (Z.of_nat i0) burst w = (w', Next) /\ tracked w'.
Proof.
  intros HB Herr. induction n as [|n IH]; intros i0 ptrs w Hw Ht HP.
  - exists w. done.
  - destruct (round_without_saturation E B hs ptrs w burst (Z.of_nat i0) HB Herr Hw Ht
                ltac:(lia)) as (w1 & Hb & Ht1).
    pose proof (filling_loop_body E B hs ptrs w burst _ w1 HB Hw Hb) as Hw1.
    simpl. rewrite Hb. replace (Z.of_nat i0 + 1) with (Z.of_nat (S i0)) by lia.
    apply (IH (S i0) _ w1 Hw1 Ht1). rewrite length_app. simpl. lia.
Qed.

Lemma compute_without_saturation E B hs ptrs w burst :
  0 < B < 2 ^ 32 ->
  (forall k, last_error E k = cudaSuccess) ->
  filling B hs ptrs w -> tracked w ->
  adv_net_get_q_id burst <> 0 ->
  Z.of_nat (length ptrs) + Z.of_nat (Z.to_nat (adv_net_get_num_pkts burst)) <= 4 * B + 1 ->
  exists w', compute E w (Some burst) = (w', Completed) /\
             filling B hs (ptrs ++ burst_ptrs hs burst) w' /\ tracked w'.
Proof.
  intros HB Herr Hw Ht Hq HP.
  assert (Hc : filling B hs ptrs (counted E w burst)).
  { unfold counted. apply (filling_free E) in Hw. exact Hw. }
  assert (Htc : tracked (counted E w burst)).
  { unfold counted. apply (tracked_free E) in Ht. exact Ht. }
  destruct (pkt_loop_without_saturation E B hs burst _ HB Herr 0%nat ptrs _ Hc Htc HP)
    as (w1 & Hl & Ht1).
  assert (Hrun : compute E w (Some burst)
                 = (set_ttl_bytes_recv_ w1
                      (wrap64 (ttl_bytes_recv_ w1 + adv_net_get_burst_tot_byte burst)),
                    Completed)).
  { rewrite compute_data_burst by done. unfold mid_compute.
    change (Z.of_nat 0) with 0 in Hl. by rewrite Hl. }
  eexists. split; [exact Hrun|]. split; [|exact Ht1].
  by apply (filling_compute E B hs ptrs w burst _ HB Hw Hq).
Qed.

Lemma compute_completed_pkts E w burst w' :
  compute E w (Some burst) = (w', Completed) ->
  ttl_pkts_recv_ w' = wrap64 (ttl_pkts_recv_ w + adv_net_get_num_pkts burst).
Proof.
  intros Hrun.
  assert (Hq : adv_net_get_q_id burst <> 0).
  { apply (compute_completed_data E w). by rewrite Hrun. }
  rewrite compute_data_burst in Hrun by done.
  pose proof (pkt_loop_totals E (Z.to_nat (adv_net_get_num_pkts burst)) 0 burst
                (counted E w burst)) as [Lp _].
  fold (mid_compute E w burst (Z.to_nat (adv_net_get_num_pkts burst))) in Lp.
  destruct (mid_compute E w burst _) as [w1 [| |c]]; try discriminate.
  inversion Hrun; subst w'. simpl in *. rewrite Lp. apply counted_totals.
Qed.

(** ** The launch and the packet that overflows the table *)

(** C6: a round of the packet loop that finds room in the current table
    stores its packet and launches nothing.  A round that finds the table
    full, fewer than [num_concurrent] records in the tracker after the
    reclaim pass and no device error launches that table as it stands,
    before the packet of the round is stored, then moves to the next slot
    and stores the packet at index 0 there.  In particular a burst of five
    packets on a data queue, given to the fresh operator with a batch size
    of 2 on a device that reports no error, launches two tables of two
    pointers each (packets 0,1 and 2,3), leaves the pointer of packet 4
    pending with a fill count of 1, and brings [ttl_pkts_recv_] to 5. *)
Theorem launch_precedes_store_of_overflowing_packet
  (E : Env) (w : Op) (burst : AdvNetBurstParams) (idx : Z) :
  (aggr_pkts_recv_ w < batch_size_ w ->
   loop_body E w burst idx = (store_pkt w (payload_ptr w burst idx), Next) /\
   calls (store_pkt w (payload_ptr w burst idx)) = calls w) /\
  (batch_size_ w <= aggr_pkts_recv_ w ->
   length (batch_q_ (after_reclaim E w)) <> 4%nat ->
   last_error E (clock (after_reclaim E w)) = cudaSuccess ->
   let w1 := (launch_batch E w).1 in
   launch_batch E w = (w1, Next) /\
   loop_body E w burst idx = (store_pkt w1 (payload_ptr w1 burst idx), Next) /\
   launched_tables (calls w1)
   = launched_tables (calls w)
     ++ [take (Z.to_nat (batch_size_ w)) (table_of (h_dev_ptrs_ w) (cur_batch_idx_ w))] /\
   h_dev_ptrs_ w1 = h_dev_ptrs_ w /\
   cur_batch_idx_ w1 = Z.rem (cur_batch_idx_ w + 1) num_concurrent /\
   aggr_pkts_recv_ w1 = 0 /\
   calls (store_pkt w1 (payload_ptr w1 burst idx)) = calls w1 /\
   h_dev_ptrs_ (store_pkt w1 (payload_ptr w1 burst idx))
   = store_ptr (h_dev_ptrs_ w) (Z.rem (cur_batch_idx_ w + 1) num_concurrent) 0
               (adv_net_get_pkt_ptr burst idx + header_size_ w)) /\
  (forall max_packet_size hs,
     adv_net_get_q_id burst <> 0 ->
     adv_net_get_num_pkts burst = 5 ->
     (forall n, last_error E n = cudaSuccess) ->
     let r := compute E (initialize 2 max_packet_size hs) (Some burst) in
     r.2 = Completed /\
     launched_tables (calls r.1)
     = [[adv_net_get_pkt_ptr burst 0 + hs; adv_net_get_pkt_ptr burst 1 + hs];
        [adv_net_get_pkt_ptr burst 2 + hs; adv_net_get_pkt_ptr burst 3 + hs]] /\
     pending r.1 = [adv_net_get_pkt_ptr burst 4 + hs] /\
     aggr_pkts_recv_ r.1 = 1 /\
     ttl_pkts_recv_ r.1 = 5).
Proof.
  split; [|split].
  - intros Hlt. unfold loop_body. by rewrite launch_if_full_below.
  - intros Hge H4 Herr w1.
    pose proof (launch_batch_launched_tables E w H4) as Hla.
    destruct (launch_batch_launched E w H4)
      as (Hctl & _ & _ & _ & Hidx & Haggr & Htab & _ & _ & _ & Hhs & _).
    rewrite Herr in Hctl, Hidx. simpl in Hctl, Hidx.
    assert (Hl : launch_batch E w = (w1, Next)).
    { subst w1. destruct (launch_batch E w) as [w2 ctl]. simpl in *. by subst ctl. }
    split; [exact Hl|]. fold w1 in Hla, Hidx, Haggr, Htab, Hhs.
    unfold loop_body. rewrite launch_if_full_reached, Hl by done.
    repeat split; try done.
    unfold payload_ptr. simpl. by rewrite Htab, Hidx, Haggr, Hhs.
  - intros mps hs Hq Hn Herr r.
    destruct (compute_without_saturation E 2 hs [] (initialize 2 mps hs) burst)
      as (w' & Hrun & Hw & _); try done.
    { by apply filling_initialize. }
    { unfold tracked. simpl. lia. }
    { rewrite Hn. simpl. lia. }
    subst r. rewrite Hrun. simpl fst. simpl snd.
    pose proof (compute_completed_pkts E _ burst w' Hrun) as Hpk.
    rewrite Hn in Hpk. change (wrap64 _) with 5 in Hpk.
    destruct (filling_count 2 hs _ w' ltac:(lia) Hw) as [Hlen Hcount].
    pose proof (filling_pending_length 2 hs _ w' Hw) as Hpl.
    destruct Hw as (_ & (Hla & Hacc) & Hr & _).
    unfold burst_ptrs in *. rewrite Hn in *.
    change (Z.to_nat 5) with 5%nat in *. simpl in Hacc, Hlen, Hcount.
    change (Z.max 0 _) with 2 in Hcount.
    assert (Ha : aggr_pkts_recv_ w' = 1) by lia.
    destruct (launched_tables (calls w')) as [|t0 [|t1 [|t2 ls]]];
      simpl in Hcount; try lia.
    inversion Hla as [|? ? H0 Hla']; subst. inversion Hla' as [|? ? H1 _]; subst.
    destruct t0 as [|a0 [|a1 [|a2 t0]]]; try discriminate.
    destruct t1 as [|b0 [|b1 [|b2 t1]]]; try discriminate.
    simpl in Hacc. inversion Hacc as [[E0 E1 E2 E3 Hp]].
    rewrite Hp. done.
Qed.

(** A run of C6: the five-packet burst, batches of two. *)
Lemma launch_precedes_store_of_overflowing_packet_witness :
  launched_tables
    (calls (compute (env_busy 0) (initialize 2 9100 42) (Some (sample_burst 1 5))).1)
  = [[1042; 1142]; [1242; 1342]] /\
  pending (compute (env_busy 0) (initialize 2 9100 42) (Some (sample_burst 1 5))).1 = [1442] /\
  ttl_pkts_recv_ (compute (env_busy 0) (initialize 2 9100 42) (Some (sample_burst 1 5))).1 = 5.
Proof.
  destruct (launch_precedes_store_of_overflowing_packet
              (env_busy 0) (initialize 2 9100 42) (sample_burst 1 5) 0)
    as (_ & _ & H).
  destruct (H 9100 42 ltac:(by vm_compute) eq_refl (fun _ => eq_refl))
    as (_ & Hl & Hp & _ & Ht).
  split; [exact Hl|]. split; [exact Hp|exact Ht].
Defined.

(** ** Round-robin use of the slots *)

Lemma launched_slots_app a b :
  launched_slots (a ++ b) = launched_slots a ++ launched_slots b.
Proof. apply omap_app. Qed.

Lemma launched_slots_polls cs :
  Forall (fun c => is_poll c = true) cs -> launched_slots cs = [].
Proof.
  induction 1 as [|c cs Hc _ IH]; [done|].
  destruct c; try discriminate. exact IH.
Qed.

Lemma launched_slots_launch_calls E w :
  launched_slots (launch_calls E w) = [cur_batch_idx_ w].
Proof. unfold launch_calls. by destruct (DEBUG_CUDA_TIMES E =? 1). Qed.

Lemma free_batch_queue_slots E w :
  launched_slots (calls (free_batch_queue E w)) = launched_slots (calls w).
Proof.
  rewrite free_batch_queue_unfold. simpl. rewrite launched_slots_app.
  rewrite (launched_slots_polls _ (free_batch_queue_loop_polls E _ _)).
  apply app_nil_r.
Qed.

Lemma round_robin_S n :
  round_robin (S n) = round_robin n ++ [Z.of_nat n mod num_concurrent].
Proof. unfold round_robin. by rewrite seq_S, map_app. Qed.

Lemma length_round_robin n : length (round_robin n) = n.
Proof. unfold round_robin. by rewrite length_map, length_seq. Qed.

Lemma map_is_fmap {A B} (f : A -> B) (l : list A) : map f l = f <$> l.
Proof. reflexivity. Qed.

Lemma round_robin_lookup n j x :
  round_robin n !! j = Some x -> (j < n)%nat /\ x = Z.of_nat j mod num_concurrent.
Proof.
  unfold round_robin. rewrite map_is_fmap. intros H.
  apply list_lookup_fmap_Some in H as (i & -> & Hi).
  apply lookup_seq in Hi as [-> Hlt]. done.
Qed.

Lemma ring_free E w : ring w -> ring (free_batch_queue E w).
Proof.
  intros (Hs & Hc & Hd & Hq). unfold ring, ring_slots.
  rewrite free_batch_queue_slots.
  destruct (free_batch_queue_frame E w) as (_ & -> & _).
  rewrite free_batch_queue_unfold. simpl.
  destruct (free_batch_queue_loop_spec E (batch_q_ w) (clock w)) as (k & Hk & -> & _).
  simpl. rewrite length_drop. repeat split; try done; try lia.
  rewrite <- skipn_map, Hq, !skipn_map, drop_drop. do 2 f_equal. lia.
Qed.

Lemma ring_after_launch E w : ring w -> ring_after (launch_batch E w).
Proof.
  intros Hw.
  assert (Hr : ring (after_reclaim E w)).
  { unfold after_reclaim. apply ring_free. exact Hw. }
  destruct (after_reclaim_frame E w) as (_ & F2 & _).
  destruct (decide (length (batch_q_ (after_reclaim E w)) = 4%nat)) as [H4|H4].
  - rewrite launch_batch_saturated by done. unfold ring_after. simpl.
    destruct Hr as (Hs & Hc & Hd & Hq). unfold ring, ring_slots. simpl.
    rewrite launched_slots_app. simpl. rewrite app_nil_r. done.
  - destruct (launch_batch_launched E w H4) as (Hctl & Hcalls & Q & _ & I & _).
    destruct Hr as (Hs & Hc & Hd & Hq). rewrite F2 in Hc.
    assert (Hsl : launched_slots (calls (launch_batch E w).1)
                  = launched_slots (calls (after_reclaim E w)) ++ [cur_batch_idx_ w]).
    { rewrite Hcalls, !launched_slots_app, launched_slots_launch_calls, F2. f_equal.
      destruct (is_cudaSuccess _); by rewrite ?app_nil_r. }
    set (sl := launched_slots (calls (after_reclaim E w))) in *.
    assert (Hring : ring_slots (launch_batch E w).1).
    { unfold ring_slots. rewrite Hsl, length_app. simpl.
      replace (length sl + 1)%nat with (S (length sl)) by lia.
      rewrite round_robin_S. unfold ring_slots in Hs. fold sl in Hs.
      by rewrite <- Hs, Hc. }
    unfold ring_after. rewrite Hctl.
    destruct (is_cudaSuccess (last_error E (clock (after_reclaim E w)))); [|exact Hring].
    split; [exact Hring|]. rewrite Hsl, Q, I, length_app, length_app. simpl.
    split; [|split; [lia|]].
    + rewrite Hc. unfold num_concurrent.
      pose proof (Z.mod_pos_bound (Z.of_nat (length sl)) 4 ltac:(lia)) as Hm.
      rewrite Z.rem_mod_nonneg by lia.
      rewrite Zplus_mod_idemp_l. f_equal. lia.
    + rewrite map_app. simpl. unfold pushed_record. simpl.
      replace (length sl + 1 - (length (batch_q_ (after_reclaim E w)) + 1))%nat
        with (length sl - length (batch_q_ (after_reclaim E w)))%nat by lia.
      rewrite drop_app_le by lia. rewrite map_app. simpl. by rewrite Hq.
Qed.

Lemma ring_after_loop_body E w burst idx : ring w -> ring_after (loop_body E w burst idx).
Proof.
  intros Hw. unfold loop_body, launch_if_full.
  destruct (aggr_pkts_recv_ w >=? batch_size_ w); [|exact Hw].
  pose proof (ring_after_launch E w Hw) as Hl.
  destruct (launch_batch E w) as [w1 [| |c]]; exact Hl.
Qed.

Lemma ring_after_pkt_loop E n idx burst w : ring w -> ring_after (pkt_loop E n idx burst w).
Proof.
  revert idx w. induction n as [|n IH]; intros idx w Hw; [exact Hw|]. simpl.
  pose proof (ring_after_loop_body E w burst idx Hw) as Hb.
  destruct (loop_body E w burst idx) as [w1 [| |c]]; try exact Hb.
  apply IH. exact Hb.
Qed.

Lemma ring_after_compute_step E w i : ring w -> ring_after_compute (compute E w i).
Proof.
  intros Hw. apply (ring_free E) in Hw. unfold compute.
  destruct i as [burst|].
  - destruct (adv_net_get_q_id burst =? 0); [exact Hw|].
    match goal with |- context [pkt_loop E ?n ?i ?b ?w0] =>
      pose proof (ring_after_pkt_loop E n i b w0 Hw) as Hl;
      destruct (pkt_loop E n i b w0) as [w1 [| |c]] end; exact Hl.
  - unfold ring_after_compute, ring, ring_slots. simpl.
    rewrite launched_slots_app. simpl. rewrite app_nil_r. exact Hw.
Qed.

Lemma ring_after_run_steps E inputs w : ring w -> ring_after_run (run E w inputs).
Proof.
  revert w. induction inputs as [|i rest IH]; intros w Hw; [exact Hw|].
  rewrite run_cons. pose proof (ring_after_compute_step E w i Hw) as Hc.
  destruct (compute E w i) as [w1 o]. destruct o; try (apply IH; exact Hc). exact Hc.
Qed.

Lemma ring_initialize B mps hs : ring (initialize B mps hs).
Proof. unfold ring, ring_slots. simpl. repeat split; try done. Qed.

Lemma ring_slots_of_run E B mps hs inputs :
  ring_slots (run E (initialize B mps hs) inputs).1.
Proof.
  pose proof (ring_after_run_steps E inputs _ (ring_initialize B mps hs)) as H.
  unfold ring_after_run in H. destruct (run E _ inputs) as [w [|]]; simpl in *; [|exact H].
  apply H.
Qed.

(** X1: successive kernel launches use the slots 0, 1, 2, 3, 0, 1, ... whatever
    the device answers to the polls in between: in the call log of every
    run from [initialize], launch number [k] is given the table of slot
    [k mod num_concurrent]. *)
Theorem launches_go_round_robin
  (E : Env) (batch_size max_packet_size header_size : Z)
  (inputs : list (option AdvNetBurstParams)) :
  let w := (run E (initialize batch_size max_packet_size header_size) inputs).1 in
  launched_slots (calls w) = round_robin (length (launched_slots (calls w))) /\
  forall (k : nat) (s : Z),
    launched_slots (calls w) !! k = Some s -> s = Z.of_nat k mod num_concurrent.
Proof.
  intros w.
  pose proof (ring_slots_of_run E batch_size max_packet_size header_size inputs) as H.
  fold w in H. split; [exact H|].
  intros k s Hk. unfold ring_slots in H. rewrite H in Hk.
  by apply round_robin_lookup in Hk as [_ ->].
Qed.

Lemma same_slot_four_apart (L d i : nat) :
  (d <= L)%nat -> (d <= 4)%nat -> (L - d + i < L)%nat ->
  Z.of_nat L mod 4 = Z.of_nat (L - d + i) mod 4 -> d = 4%nat.
Proof.
  intros H1 H2 H3 H4. zify. Z.div_mod_to_equations. lia.
Qed.

Lemma ring_hazard w :
  ring w -> (length (batch_q_ w) <= 4)%nat ->
  in_flight w (cur_batch_idx_ w) -> length (batch_q_ w) = 4%nat.
Proof.
  intros (Hs & Hc & Hd & Hq) H4 (b & Hb & He).
  assert (Hin : In (evt b) (map evt (batch_q_ w))) by (by apply in_map).
  rewrite Hq, He in Hin. apply in_map_iff in Hin as (x & Hx & Hin).
  inversion Hx; subst x.
  apply (proj2 (list_elem_of_In _ _)) in Hin.
  apply list_elem_of_lookup in Hin as (i & Hi).
  rewrite lookup_drop in Hi. unfold ring_slots in Hs. rewrite Hs in Hi.
  apply round_robin_lookup in Hi as [Hlt Hmod].
  rewrite length_round_robin in Hlt, Hmod.
  rewrite Hc in Hmod. unfold num_concurrent in Hmod.
  by apply (same_slot_four_apart _ _ i Hd H4 Hlt).
Qed.

(** X2: while the process lives, a record of the tracker refers to the slot
    being filled only when the tracker is full: in every state reached from
    [initialize], between two calls of [compute] and after any number of
    rounds of the packet loop, if a record in the tracker carries the marker
    of the current slot then the tracker holds [num_concurrent] records. *)
Theorem current_slot_in_flight_only_when_tracker_full
  (E : Env) (batch_size max_packet_size header_size : Z)
  (inputs : list (option AdvNetBurstParams)) :
  (run E (initialize batch_size max_packet_size header_size) inputs).2 = true ->
  let w := (run E (initialize batch_size max_packet_size header_size) inputs).1 in
  (in_flight w (cur_batch_idx_ w) -> Z.of_nat (length (batch_q_ w)) = num_concurrent) /\
  (forall burst n w',
     mid_compute E w burst n = (w', Next) ->
     in_flight w' (cur_batch_idx_ w') ->
     Z.of_nat (length (batch_q_ w')) = num_concurrent).
Proof.
  intros Halive w.
  assert (Hring : ring w).
  { pose proof (ring_after_run_steps E inputs _
                  (ring_initialize batch_size max_packet_size header_size)) as H.
    unfold ring_after_run in H. rewrite Halive in H. exact H. }
  assert (Hdepth : (length (batch_q_ w) <= 4)%nat).
  { subst w. apply depth_invariant_run. simpl. lia. }
  unfold num_concurrent. split.
  - intros Hin. pose proof (ring_hazard w Hring Hdepth Hin). lia.
  - intros burst n w' Hmid Hin. unfold mid_compute in Hmid.
    assert (Hc : ring (counted E w burst)).
    { unfold counted. apply (ring_free E) in Hring. exact Hring. }
    assert (Hd : (length (batch_q_ (counted E w burst)) <= 4)%nat).
    { unfold counted. simpl. pose proof (free_batch_queue_depth E w). lia. }
    pose proof (ring_after_pkt_loop E n 0 burst _ Hc) as Hr.
    pose proof (depth_invariant_pkt_loop E n 0 burst _ Hd) as Hd'.
    rewrite Hmid in Hr, Hd'. unfold ring_after in Hr. simpl in Hr, Hd'.
    pose proof (ring_hazard w' Hr Hd' Hin). lia.
Qed.

(** A run of X2, in which the current slot is in flight: batches of one packet, a
    device that reclaims nothing, five packets. *)
Lemma current_slot_in_flight_only_when_tracker_full_witness :
  Z.of_nat (length (batch_q_ (run (env_busy 0) (initialize 1 9100 42)
                                  [Some (sample_burst 1 5)]).1)) = num_concurrent.
Proof.
  apply (proj1 (current_slot_in_flight_only_when_tracker_full
                  (env_busy 0) 1 9100 42 [Some (sample_burst 1 5)] eq_refl)).
  vm_compute. eexists. split; [left; reflexivity|reflexivity].
Defined.

(** X3: a [compute] call without an input burst logs the fact and returns: after
    the polls of the opening reclaim pass the log entry is its only call,
    tables, fill count, current slot and totals are untouched, and the run
    goes on with the next input. *)
Theorem missing_burst_is_logged_and_skipped
  (E : Env) (w : Op) (rest : list (option AdvNetBurstParams)) :
  let r := compute E w None in
  r.2 = NoBurst /\
  (exists polls, calls r.1 = calls w ++ polls ++ [HOLOSCAN_LOG_ERROR no_burst_msg []] /\
                 Forall (fun c => is_poll c = true) polls) /\
  (exists k, batch_q_ r.1 = drop k (batch_q_ w)) /\
  h_dev_ptrs_ r.1 = h_dev_ptrs_ w /\
  aggr_pkts_recv_ r.1 = aggr_pkts_recv_ w /\
  cur_batch_idx_ r.1 = cur_batch_idx_ w /\
  ttl_pkts_recv_ r.1 = ttl_pkts_recv_ w /\
  ttl_bytes_recv_ r.1 = ttl_bytes_recv_ w /\
  run E w (None :: rest) = run E r.1 rest.
Proof.
  intros r. subst r. unfold compute. simpl.
  destruct (free_batch_queue_frame E w) as (_ & F2 & F3 & F4 & F5 & _ & F7 & _).
  split; [done|]. split; [|split].
  - rewrite free_batch_queue_unfold. simpl. eexists. rewrite <- app_assoc.
    split; [done|]. apply free_batch_queue_loop_polls.
  - rewrite free_batch_queue_unfold. simpl.
    destruct (free_batch_queue_loop_spec E (batch_q_ w) (clock w)) as (k & _ & -> & _).
    by exists k.
  - repeat split; done.
Qed.

(** X4: an error reported by [cudaGetLastError] after a launch ends the
    process: the launch path logs the error and calls [exit(1)], the round
    of the packet loop and [compute] end there, and [run] handles no further
    input. *)
Theorem device_error_after_launch_exits
  (E : Env) (w : Op) (burst : AdvNetBurstParams) (idx : Z) :
  length (batch_q_ (after_reclaim E w)) <> 4%nat ->
  last_error E (clock (after_reclaim E w)) <> cudaSuccess ->
  (launch_batch E w).2 = Exit 1 /\
  (exists cs,
     calls (launch_batch E w).1
     = cs ++ [cudaGetLastError (last_error E (clock (after_reclaim E w)));
              HOLOSCAN_LOG_ERROR cuda_error_msg
                [batch_size_ w; wrap_u32 (batch_size_ w * nom_payload_size_ w)];
              exit 1]) /\
  (batch_size_ w <= aggr_pkts_recv_ w ->
   loop_body E w burst idx = ((launch_batch E w).1, Exit 1)) /\
  (forall w0 i w' c rest, compute E w0 i = (w', Exited c) ->
                          run E w0 (i :: rest) = (w', false)).
Proof.
  intros H4 Herr. apply is_cudaSuccess_false in Herr.
  destruct (launch_batch_launched E w H4) as (Hctl & Hcalls & _).
  rewrite Herr in Hctl, Hcalls.
  split; [exact Hctl|]. split; [|split].
  - eexists. rewrite Hcalls. rewrite !app_assoc. rewrite <- app_assoc. reflexivity.
  - intros Hfull. unfold loop_body. rewrite launch_if_full_reached by done.
    destruct (launch_batch E w) as [w1 ctl]. simpl in Hctl. by subst ctl.
  - intros w0 i w' c rest Hc. by rewrite run_cons, Hc.
Qed.

(** A run of X4, the exit path: batches of one packet on a device that reports
    an error after the first launch. *)
Lemma device_error_after_launch_exits_witness :
  (launch_batch (env_faulty 0)
     (mid_compute (env_faulty 0) (initialize 1 9100 42) (sample_burst 1 3) 1).1).2 = Exit 1 /\
  run (env_faulty 0) (initialize 1 9100 42) [Some (sample_burst 1 3); Some (sample_burst 1 3)]
  = ((compute (env_faulty 0) (initialize 1 9100 42) (Some (sample_burst 1 3))).1, false).
Proof.
  destruct (device_error_after_launch_exits (env_faulty 0)
              (mid_compute (env_faulty 0) (initialize 1 9100 42) (sample_burst 1 3) 1).1
              (sample_burst 1 3) 1) as (Hx & _ & _ & Hrun).
  - by vm_compute.
  - by vm_compute.
  - split; [exact Hx|]. apply (Hrun _ _ _ 1). vm_compute. reflexivity.
Defined.

(** ** The lifetime totals of a run *)

Lemma wrap64_idem z : wrap64 (wrap64 z) = wrap64 z.
Proof.
  apply wrap64_small. unfold wrap64.
  pose proof (Z.mod_pos_bound (z + 2 ^ 63) (2 ^ 64) ltac:(lia)). lia.
Qed.

Lemma wrap64_add_l a b : wrap64 (wrap64 a + b) = wrap64 (a + b).
Proof.
  unfold wrap64. f_equal.
  replace ((a + 2 ^ 63) mod 2 ^ 64 - 2 ^ 63 + b + 2 ^ 63)
    with ((a + 2 ^ 63) mod 2 ^ 64 + b) by lia.
  rewrite Zplus_mod_idemp_l. f_equal. lia.
Qed.

(** What a call of [compute] does to the two totals, by its outcome. *)
Lemma compute_totals E w i :
  in_int64 (ttl_pkts_recv_ w) -> in_int64 (ttl_bytes_recv_ w) ->
  outcome_fits (i, (compute E w i).2) /\
  ttl_pkts_recv_ (compute E w i).1
  = wrap64 (ttl_pkts_recv_ w + counted_pkts (i, (compute E w i).2)) /\
  ttl_bytes_recv_ (compute E w i).1
  = wrap64 (ttl_bytes_recv_ w + counted_bytes (i, (compute E w i).2)).
Proof.
  unfold in_int64. intros Rp Rb.
  destruct (free_batch_queue_frame E w) as (_ & _ & F3 & F4 & _).
  destruct i as [burst|];
    [|unfold compute; simpl; rewrite F3, F4, !Z.add_0_r, Rp, Rb; done].
  unfold outcome_fits.
  destruct (adv_net_get_q_id burst =? 0) eqn:Hz.
  - unfold compute. rewrite Hz. simpl. rewrite F3, F4, !Z.add_0_r, Rp, Rb. done.
  - assert (Hq : adv_net_get_q_id burst <> 0) by lia.
    rewrite compute_data_burst by done.
    destruct (counted_totals E w burst) as [Hp Hb].
    pose proof (pkt_loop_totals E (Z.to_nat (adv_net_get_num_pkts burst)) 0 burst
                  (counted E w burst)) as [Lp Lb].
    fold (mid_compute E w burst (Z.to_nat (adv_net_get_num_pkts burst))) in Lp, Lb.
    destruct (mid_compute E w burst _) as [w1 [| |c]]; simpl in *;
      rewrite ?Lp, ?Lb, ?Hp, ?Hb, ?Z.add_0_r, ?Rb; repeat split; eauto.
Qed.

Lemma run_log_cons E w i rest :
  run_log E w (i :: rest)
  = match compute E w i with
    | (w', Exited c) => [(i, Exited c)]
    | (w', o) => (i, o) :: run_log E w' rest
    end.
Proof. reflexivity. Qed.

Lemma sum_Z_cons x l : sum_Z (x :: l) = x + sum_Z l.
Proof. reflexivity. Qed.

Lemma run_totals E inputs w :
  in_int64 (ttl_pkts_recv_ w) -> in_int64 (ttl_bytes_recv_ w) ->
  Forall outcome_fits (run_log E w inputs) /\
  ttl_pkts_recv_ (run E w inputs).1
  = wrap64 (ttl_pkts_recv_ w + sum_Z (map counted_pkts (run_log E w inputs))) /\
  ttl_bytes_recv_ (run E w inputs).1
  = wrap64 (ttl_bytes_recv_ w + sum_Z (map counted_bytes (run_log E w inputs))).
Proof.
  revert w. induction inputs as [|i rest IH]; intros w Rp Rb.
  - simpl. rewrite !Z.add_0_r. unfold in_int64 in *. by rewrite Rp, Rb.
  - rewrite run_cons, run_log_cons.
    destruct (compute_totals E w i Rp Rb) as (Hf & Hp & Hb).
    destruct (compute E w i) as [w1 o]. simpl fst in *. simpl snd in *.
    assert (Rp1 : in_int64 (ttl_pkts_recv_ w1)) by (rewrite Hp; apply wrap64_idem).
    assert (Rb1 : in_int64 (ttl_bytes_recv_ w1)) by (rewrite Hb; apply wrap64_idem).
    destruct (IH w1 Rp1 Rb1) as (IHf & IHp & IHb).
    assert (Hstep :
              Forall outcome_fits ((i, o) :: run_log E w1 rest) /\
              ttl_pkts_recv_ (run E w1 rest).1
              = wrap64 (ttl_pkts_recv_ w
                        + sum_Z (map counted_pkts ((i, o) :: run_log E w1 rest))) /\
              ttl_bytes_recv_ (run E w1 rest).1
              = wrap64 (ttl_bytes_recv_ w
                        + sum_Z (map counted_bytes ((i, o) :: run_log E w1 rest)))).
    { split; [by constructor|]. rewrite !map_cons, !sum_Z_cons.
      rewrite IHp, IHb, Hp, Hb, !wrap64_add_l. split; f_equal; lia. }
    destruct o; try exact Hstep.
    split; [by repeat constructor|].
    rewrite !map_cons, !sum_Z_cons. simpl map. simpl sum_Z. rewrite !Z.add_0_r. done.
Qed.

(** X5: the totals that the destructor reports.  After any run from
    [initialize], [ttl_pkts_recv_] is the sum (in [int64_t] arithmetic) of
    the packet counts of all bursts that got past the queue-id test, whether
    their call completed, returned on saturation or exited, and
    [ttl_bytes_recv_] is the sum of the byte counts of the bursts whose call
    completed; calls without a burst and bursts on queue 0 add nothing.  The
    first call of the destructor logs these two numbers, bytes first. *)
Theorem lifetime_totals_of_a_run
  (E : Env) (batch_size max_packet_size header_size : Z)
  (inputs : list (option AdvNetBurstParams)) :
  let w0 := initialize batch_size max_packet_size header_size in
  let w := (run E w0 inputs).1 in
  Forall outcome_fits (run_log E w0 inputs) /\
  ttl_pkts_recv_ w = wrap64 (sum_Z (map counted_pkts (run_log E w0 inputs))) /\
  ttl_bytes_recv_ w = wrap64 (sum_Z (map counted_bytes (run_log E w0 inputs))) /\
  head (AdvNetworkingBenchDocaRxOp_destructor w)
  = Some (inl (HOLOSCAN_LOG_INFO finished_msg
                 [wrap64 (sum_Z (map counted_bytes (run_log E w0 inputs)));
                  wrap64 (sum_Z (map counted_pkts (run_log E w0 inputs)))])).
Proof.
  intros w0 w.
  destruct (run_totals E inputs w0) as (Hf & Hp & Hb); try reflexivity.
  fold w in Hp, Hb. simpl in Hp, Hb.
  split; [exact Hf|]. split; [exact Hp|]. split; [exact Hb|].
  simpl. by rewrite Hp, Hb.
Qed.

(** ** How many packets the operator takes before it can fall behind *)

Lemma round_accepts E B hs ptrs w burst idx :
  0 < B < 2 ^ 32 -> no_device_error E ->
  filling B hs ptrs w -> tracked w ->
  Z.of_nat (length ptrs) < 5 * B ->
  exists w', loop_body E w burst idx = (w', Next) /\ tracked w'.
Proof.
  intros HB Herr Hw Ht HP. unfold loop_body.
  assert (Hbs : batch_size_ w = B) by apply Hw.
  destruct (Z_lt_le_dec (aggr_pkts_recv_ w) B) as [Hlt|Hge].
  - rewrite launch_if_full_below by lia. eexists. split; [done|]. exact Ht.
  - rewrite launch_if_full_reached by lia.
    destruct (filling_count B hs ptrs w ltac:(lia) Hw) as [Hlen _].
    assert (Hr : 0 <= aggr_pkts_recv_ w <= B) by apply Hw.
    pose proof (after_reclaim_depth E w) as Hd. unfold tracked in Ht.
    assert (H4 : length (batch_q_ (after_reclaim E w)) <> 4%nat) by nia.
    destruct (launch_batch_launched E w H4) as (Hctl & _ & Hq & _).
    pose proof (launch_batch_launched_tables E w H4) as Hla.
    rewrite Herr in Hctl. simpl in Hctl.
    destruct (launch_batch E w) as [w1 ctl]. simpl in *. subst ctl.
    eexists. split; [done|]. unfold tracked. simpl.
    rewrite Hq, Hla, !length_app. simpl. lia.
Qed.

Lemma pkt_loop_accepts E B hs burst n :
  0 < B < 2 ^ 32 -> no_device_error E ->
  forall (i0 : nat) ptrs w,
    filling B hs ptrs w -> tracked w ->
    Z.of_nat (length ptrs) + Z.of_nat n <= 5 * B ->
    exists w', pkt_loop E n (Z.of_nat i0) burst w = (w', Next) /\ tracked w'.
Proof.
  intros HB Herr. induction n as [|n IH]; intros i0 ptrs w Hw Ht HP.
  - exists w. done.
  - destruct (round_accepts E B hs ptrs w burst (Z.of_nat i0) HB Herr Hw Ht
                ltac:(lia)) as (w1 & Hb & Ht1).
    pose proof (filling_loop_body E B hs ptrs w burst _ w1 HB Hw Hb) as Hw1.
    simpl. rewrite Hb. replace (Z.of_nat i0 + 1) with (Z.of_nat (S i0)) by lia.
    apply (IH (S i0) _ w1 Hw1 Ht1). rewrite length_app. simpl. lia.
Qed.

Lemma length_burst_ptrs hs burst :
  length (burst_ptrs hs burst) = Z.to_nat (adv_net_get_num_pkts burst).
Proof. unfold burst_ptrs. by rewrite length_map, length_seq. Qed.

Lemma compute_accepts E B hs ptrs w burst :
  0 < B < 2 ^ 32 -> no_device_error E ->
  filling B hs ptrs w -> tracked w ->
  adv_net_get_q_id burst <> 0 ->
  Z.of_nat (length ptrs) + Z.of_nat (length (burst_ptrs hs burst)) <= 5 * B ->
  exists w', compute E w (Some burst) = (w', Completed) /\
             filling B hs (ptrs ++ burst_ptrs hs burst) w' /\ tracked w'.
Proof.
  intros HB Herr Hw Ht Hq HP. rewrite length_burst_ptrs in HP.
  assert (Hc : filling B hs ptrs (counted E w burst)).
  { unfold counted. apply (filling_free E) in Hw. exact Hw. }
  assert (Htc : tracked (counted E w burst)).
  { unfold counted. apply (tracked_free E) in Ht. exact Ht. }
  destruct (pkt_loop_accepts E B hs burst _ HB Herr 0%nat ptrs _ Hc Htc HP)
    as (w1 & Hl & Ht1).
  assert (Hrun : compute E w (Some burst)
                 = (set_ttl_bytes_recv_ w1
                      (wrap64 (ttl_bytes_recv_ w1 + adv_net_get_burst_tot_byte burst)),
                    Completed)).
  { rewrite compute_data_burst by done. unfold mid_compute.
    change (Z.of_nat 0) with 0 in Hl. by rewrite Hl. }
  eexists. split; [exact Hrun|]. split; [|exact Ht1].
  by apply (filling_compute E B hs ptrs w burst _ HB Hw Hq).
Qed.

Lemma run_accepts E B hs :
  0 < B < 2 ^ 32 -> no_device_error E ->
  forall bs ptrs w,
    filling B hs ptrs w -> tracked w ->
    Forall (fun b => adv_net_get_q_id b <> 0) bs ->
    Z.of_nat (length ptrs) + Z.of_nat (length (arrival_ptrs hs bs)) <= 5 * B ->
    Forall (fun o => o = Completed) (run_outcomes E w (map Some bs)) /\
    (run E w (map Some bs)).2 = true /\
    filling B hs (ptrs ++ arrival_ptrs hs bs) (run E w (map Some bs)).1.
Proof.
  intros HB Herr. induction bs as [|b bs IH]; intros ptrs w Hw Ht Hq HP.
  - unfold arrival_ptrs. simpl. rewrite app_nil_r.
    split; [constructor|]. split; [reflexivity|exact Hw].
  - inversion Hq as [|? ? Hqb Hqs]; subst.
    unfold arrival_ptrs in HP. rewrite map_cons, concat_cons, length_app in HP.
    fold (arrival_ptrs hs bs) in HP.
    change (map Some (b :: bs)) with (Some b :: map Some bs).
    rewrite run_outcomes_cons, run_cons.
    destruct (compute_accepts E B hs ptrs w b HB Herr Hw Ht Hqb ltac:(lia))
      as (w1 & -> & Hw1 & Ht1).
    destruct (IH _ w1 Hw1 Ht1 Hqs) as (Ho & Ha & Hf).
    { rewrite length_app. lia. }
    split; [by constructor|]. split; [exact Ha|].
    unfold arrival_ptrs in *. rewrite map_cons, concat_cons. by rewrite app_assoc.
Qed.

(** X6: the first [5 * B] packets are always taken.  On a device that
    reports no error, whatever its completion markers answer, every call of
    [compute] on data-queue bursts that bring the packet count of the fresh
    operator to at most [5 * B] goes through its whole burst: no saturation
    return, and every payload pointer is in a launched table or pending. *)
Theorem first_five_batches_are_accepted
  (E : Env) (B max_packet_size hs : Z) (bs : list AdvNetBurstParams) :
  0 < B < 2 ^ 32 ->
  no_device_error E ->
  Forall (fun b => adv_net_get_q_id b <> 0) bs ->
  Z.of_nat (length (arrival_ptrs hs bs)) <= 5 * B ->
  let w0 := initialize B max_packet_size hs in
  Forall (fun o => o = Completed) (run_outcomes E w0 (map Some bs)) /\
  (run E w0 (map Some bs)).2 = true /\
  concat (launched_tables (calls (run E w0 (map Some bs)).1))
  ++ pending (run E w0 (map Some bs)).1 = arrival_ptrs hs bs /\
  Z.of_nat (length (launched_tables (calls (run E w0 (map Some bs)).1))) <= 4.
Proof.
  intros HB Herr Hq HP w0.
  destruct (run_accepts E B hs HB Herr bs [] w0) as (Ho & Ha & Hf); try done.
  { by apply filling_initialize; lia. }
  { unfold tracked. simpl. lia. }
  split; [exact Ho|]. split; [exact Ha|]. simpl in Hf.
  destruct (filling_count B hs _ _ ltac:(lia) Hf) as [Hlen _].
  destruct Hf as (_ & (_ & Hacc) & Hr & Hne). split; [exact Hacc|].
  destruct Hne as [Hnil|H1]; [|nia].
  rewrite Hnil in Hlen. simpl in Hlen. nia.
Qed.

(** A run of X6: the default batch size, five bursts of 1000 packets. *)
Lemma first_five_batches_are_accepted_witness :
  (run (env_busy 0) (initialize default_batch_size default_max_packet_size default_header_size)
       (map Some (replicate 5 (sample_burst 1 1000)))).2 = true.
Proof.
  apply (first_five_batches_are_accepted (env_busy 0) default_batch_size
           default_max_packet_size default_header_size (replicate 5 (sample_burst 1 1000))).
  - by vm_compute.
  - intros n. reflexivity.
  - repeat constructor; by vm_compute.
  - vm_compute. discriminate.
Defined.

Lemma free_batch_queue_stalled E w :
  stalled E -> batch_q_ (free_batch_queue E w) = batch_q_ w.
Proof.
  intros Hst. rewrite free_batch_queue_unfold. simpl.
  destruct (free_batch_queue_loop_spec E (batch_q_ w) (clock w)) as (k & Hk & -> & Hsat & _).
  simpl. destruct k as [|k]; [done|].
  destruct (lookup_lt_is_Some_2 (batch_q_ w) 0) as [b Hb]; [lia|].
  exfalso. by apply (Hst (clock w + 0)%nat (evt b)), Hsat; [lia|].
Qed.

Lemma none_reclaimed_free E w :
  stalled E -> none_reclaimed w -> none_reclaimed (free_batch_queue E w).
Proof.
  intros Hst Hw. unfold none_reclaimed.
  by rewrite free_batch_queue_stalled, free_batch_queue_launched.
Qed.

Lemma none_reclaimed_loop_body E w burst idx w' :
  stalled E -> none_reclaimed w ->
  loop_body E w burst idx = (w', Next) -> none_reclaimed w'.
Proof.
  intros Hst Hw Hrun. unfold loop_body, launch_if_full in Hrun.
  destruct (aggr_pkts_recv_ w >=? batch_size_ w).
  - destruct (launch_batch E w) as [w1 [| |c]] eqn:Hl; try discriminate.
    inversion Hrun; subst w'. unfold none_reclaimed. simpl.
    destruct (decide (length (batch_q_ (after_reclaim E w)) = 4%nat)) as [H4|H4].
    { rewrite launch_batch_saturated in Hl by done. discriminate. }
    destruct (launch_batch_launched E w H4) as (_ & _ & Hq & _).
    pose proof (launch_batch_launched_tables E w H4) as Hla.
    rewrite Hl in Hq, Hla. simpl in Hq, Hla. rewrite Hq, Hla, !length_app.
    unfold after_reclaim. rewrite free_batch_queue_stalled by done. simpl.
    unfold none_reclaimed in Hw. lia.
  - inversion Hrun; subst w'. exact Hw.
Qed.

Lemma none_reclaimed_pkt_loop E n idx burst w w' :
  stalled E -> none_reclaimed w ->
  pkt_loop E n idx burst w = (w', Next) -> none_reclaimed w'.
Proof.
  intros Hst. revert idx w. induction n as [|n IH]; intros idx w Hw Hrun; simpl in Hrun.
  - by inversion Hrun; subst.
  - destruct (loop_body E w burst idx) as [w1 [| |c]] eqn:Hb; try discriminate.
    eapply IH; [|exact Hrun]. by eapply none_reclaimed_loop_body.
Qed.

Lemma none_reclaimed_compute E w burst w' :
  stalled E -> none_reclaimed w ->
  compute E w (Some burst) = (w', Completed) -> none_reclaimed w'.
Proof.
  intros Hst Hw Hrun.
  assert (Hq : adv_net_get_q_id burst <> 0).
  { apply (compute_completed_data E w). by rewrite Hrun. }
  rewrite compute_data_burst in Hrun by done. unfold mid_compute in Hrun.
  destruct (pkt_loop E _ 0 burst (counted E w burst)) as [w1 [| |c]] eqn:Hl;
    try discriminate.
  inversion Hrun; subst w'.
  apply (none_reclaimed_pkt_loop E _ 0 burst (counted E w burst) w1 Hst) in Hl; [exact Hl|].
  unfold counted. apply (none_reclaimed_free E) in Hw; [exact Hw|done].
Qed.

Lemma none_reclaimed_run E bs w :
  stalled E -> none_reclaimed w ->
  Forall (fun o => o = Completed) (run_outcomes E w (map Some bs)) ->
  none_reclaimed (run E w (map Some bs)).1.
Proof.
  intros Hst. revert w. induction bs as [|b bs IH]; intros w Hw Hout; [exact Hw|].
  change (map Some (b :: bs)) with (Some b :: map Some bs) in *.
  rewrite run_outcomes_cons in Hout. rewrite run_cons.
  destruct (compute E w (Some b)) as [w1 o] eqn:Hc.
  assert (Ho : o = Completed /\ Forall (fun o => o = Completed)
                                       (run_outcomes E w1 (map Some bs))).
  { destruct o; inversion Hout; subst; try discriminate. done. }
  destruct Ho as [-> Hrest].
  apply IH; [|exact Hrest]. by eapply none_reclaimed_compute.
Qed.

(** X7: the bound of X6 is reached.  On a device that reports no error
    and never satisfies a completion marker, once data-queue bursts have
    brought the packet count of the fresh operator to exactly [5 * B], four
    batches are in flight and the fifth table is full; the next data-queue
    burst that has a packet ends in the saturation return on its first
    packet, which is not stored. *)
Theorem stalled_device_saturates_after_five_batches
  (E : Env) (B max_packet_size hs : Z) (bs : list AdvNetBurstParams)
  (burst : AdvNetBurstParams) :
  0 < B < 2 ^ 32 ->
  no_device_error E ->
  stalled E ->
  Forall (fun b => adv_net_get_q_id b <> 0) bs ->
  Z.of_nat (length (arrival_ptrs hs bs)) = 5 * B ->
  adv_net_get_q_id burst <> 0 ->
  0 < adv_net_get_num_pkts burst ->
  let w := (run E (initialize B max_packet_size hs) (map Some bs)).1 in
  Z.of_nat (length (batch_q_ w)) = num_concurrent /\
  aggr_pkts_recv_ w = B /\
  (compute E w (Some burst)).2 = FellBehind /\
  h_dev_ptrs_ (compute E w (Some burst)).1 = h_dev_ptrs_ w /\
  launched_tables (calls (compute E w (Some burst)).1) = launched_tables (calls w).
Proof.
  intros HB Herr Hst Hq HP Hqb Hn w.
  destruct (run_accepts E B hs HB Herr bs [] (initialize B max_packet_size hs))
    as (Ho & _ & Hf); try done.
  { by apply filling_initialize; lia. }
  { unfold tracked. simpl. lia. }
  { simpl. lia. }
  simpl in Hf. fold w in Hf.
  assert (Hnr : none_reclaimed w).
  { subst w. apply none_reclaimed_run; try done. }
  destruct (filling_count B hs _ w ltac:(lia) Hf) as [Hlen _].
  assert (Hr : 0 <= aggr_pkts_recv_ w <= B) by apply Hf.
  assert (Hne : arrival_ptrs hs bs = [] \/ 1 <= aggr_pkts_recv_ w) by apply Hf.
  assert (Hbs : batch_size_ w = B) by apply Hf.
  assert (Ha : aggr_pkts_recv_ w = B /\
               length (launched_tables (calls w)) = 4%nat).
  { destruct Hne as [Hnil|H1]; [rewrite Hnil in HP; simpl in HP; lia|].
    set (L := Z.of_nat (length (launched_tables (calls w)))) in *.
    assert (HL4 : L = 4).
    { destruct (Z_lt_le_dec L 4) as [Hlo|Hhi].
      - assert (L * B <= 3 * B) by (apply Z.mul_le_mono_nonneg_r; lia). lia.
      - destruct (Z_lt_le_dec 4 L) as [Hlo|Hhi']; [|lia].
        assert (5 * B <= L * B) by (apply Z.mul_le_mono_nonneg_r; lia). lia. }
    subst L. split; lia. }
  destruct Ha as [Ha HL]. unfold none_reclaimed in Hnr. unfold num_concurrent.
  split; [lia|]. split; [exact Ha|].
  destruct (free_batch_queue_frame E w) as (_ & _ & _ & _ & F5 & _ & F7 & F8 & _).
  assert (Hsat : launch_batch E (counted E w burst)
                 = (emit (after_reclaim E (counted E w burst))
                         [HOLOSCAN_LOG_ERROR fell_behind_msg []], Return)).
  { apply launch_batch_saturated. unfold after_reclaim, counted.
    rewrite free_batch_queue_stalled by done. simpl.
    rewrite free_batch_queue_stalled by done. lia. }
  assert (Hrun : compute E w (Some burst)
                 = (emit (after_reclaim E (counted E w burst))
                         [HOLOSCAN_LOG_ERROR fell_behind_msg []], FellBehind)).
  { rewrite compute_data_burst by done. unfold mid_compute.
    replace (Z.to_nat (adv_net_get_num_pkts burst))
      with (S (Z.to_nat (adv_net_get_num_pkts burst) - 1)) by lia.
    simpl. unfold loop_body. rewrite launch_if_full_reached.
    - by rewrite Hsat.
    - unfold counted. simpl. rewrite F5, F8. lia. }
  rewrite Hrun. simpl fst. simpl snd. split; [done|].
  destruct (after_reclaim_frame E (counted E w burst)) as (_ & _ & _ & _ & _ & _ & G7 & _).
  destruct (after_reclaim_calls E (counted E w burst)) as (polls & Hc & Hp).
  split.
  - simpl. rewrite G7. unfold counted. simpl. exact F7.
  - simpl. rewrite Hc, !launched_tables_app, (launched_tables_polls polls Hp).
    simpl. rewrite !app_nil_r. unfold counted. simpl. apply free_batch_queue_launched.
Qed.

(** A run of X7: batches of two, ten packets, then one more. *)
Lemma stalled_device_saturates_after_five_batches_witness :
  (compute (env_busy 0)
     (run (env_busy 0) (initialize 2 9100 42) (map Some [sample_burst 1 10])).1
     (Some (sample_burst 1 1))).2 = FellBehind.
Proof.
  apply (stalled_device_saturates_after_five_batches (env_busy 0) 2 9100 42
           [sample_burst 1 10] (sample_burst 1 1)).
  - by vm_compute.
  - intros n. reflexivity.
  - intros n e. discriminate.
  - repeat constructor; by vm_compute.
  - by vm_compute.
  - by vm_compute.
  - by vm_compute.
Defined.

(** ** What the saturation return leaves behind *)

Lemma launch_batch_return E w0 w' :
  launch_batch E w0 = (w', Return) ->
  length (batch_q_ (after_reclaim E w0)) = 4%nat /\
  w' = emit (after_reclaim E w0) [HOLOSCAN_LOG_ERROR fell_behind_msg []].
Proof.
  intros Hl.
  destruct (decide (length (batch_q_ (after_reclaim E w0)) = 4%nat)) as [H4|H4].
  - rewrite launch_batch_saturated in Hl by done. by inversion Hl.
  - destruct (launch_batch_launched E w0 H4) as (Hctl & _).
    rewrite Hl in Hctl. simpl in Hctl. by destruct (is_cudaSuccess _).
Qed.

Lemma loop_body_return E w burst idx w' :
  loop_body E w burst idx = (w', Return) ->
  batch_size_ w <= aggr_pkts_recv_ w /\ launch_batch E w = (w', Return).
Proof.
  unfold loop_body, launch_if_full. intros Hrun.
  destruct (aggr_pkts_recv_ w >=? batch_size_ w) eqn:Hge; [|discriminate].
  split; [lia|]. by destruct (launch_batch E w) as [w1 [| |c]]; try discriminate.
Qed.

Lemma pkt_loop_return E n idx burst w w' :
  pkt_loop E n idx burst w = (w', Return) ->
  exists (k : nat) (w0 : Op),
    (k < n)%nat /\
    pkt_loop E k idx burst w = (w0, Next) /\
    batch_size_ w0 <= aggr_pkts_recv_ w0 /\
    launch_batch E w0 = (w', Return).
Proof.
  revert idx w. induction n as [|n IH]; intros idx w Hrun; simpl in Hrun; [discriminate|].
  destruct (loop_body E w burst idx) as [w1 [| |c]] eqn:Hb; try discriminate.
  - destruct (IH _ _ Hrun) as (k & w0 & Hk & Hpre & Hfull & Hl).
    exists (S k), w0. split; [lia|]. split; [|done]. simpl. by rewrite Hb.
  - inversion Hrun; subst w1. apply loop_body_return in Hb as [Hfull Hl].
    exists O, w. split; [lia|]. done.
Qed.

(** X8: [compute] ends in the saturation return only with a full tracker,
    and the return drops a full table.  When a call ends that way, its input
    is a burst, and some round [k] of the packet loop of this call, reached
    in the state [w0] after [k] completed rounds, met the check with a fill
    count of at least [batch_size]; the state returned is [w0] after the
    reset of the fill count, the reclaim pass and the log entry.  So the
    tracker holds [num_concurrent] records, the log entry is the last call,
    the table that was full in [w0] was not launched, the tables and the
    current slot are those of [w0], but the fill count is 0: nothing is
    pending, and the next packet stored goes to index 0 of the same
    table. *)
Theorem saturation_return_drops_the_full_table
  (E : Env) (w : Op) (i : option AdvNetBurstParams) (w' : Op) :
  compute E w i = (w', FellBehind) ->
  Z.of_nat (length (batch_q_ w')) = num_concurrent /\
  (exists cs, calls w' = cs ++ [HOLOSCAN_LOG_ERROR fell_behind_msg []]) /\
  (exists (burst : AdvNetBurstParams) (k : nat) (w0 : Op),
     i = Some burst /\
     (k < Z.to_nat (adv_net_get_num_pkts burst))%nat /\
     mid_compute E w burst k = (w0, Next) /\
     batch_size_ w0 <= aggr_pkts_recv_ w0 /\
     w' = emit (after_reclaim E w0) [HOLOSCAN_LOG_ERROR fell_behind_msg []] /\
     batch_size_ w' = batch_size_ w0 /\
     h_dev_ptrs_ w' = h_dev_ptrs_ w0 /\
     cur_batch_idx_ w' = cur_batch_idx_ w0 /\
     launched_tables (calls w') = launched_tables (calls w0)) /\
  aggr_pkts_recv_ w' = 0 /\
  pending w' = [] /\
  (0 < batch_size_ w' ->
   forall burst idx,
     loop_body E w' burst idx = (store_pkt w' (payload_ptr w' burst idx), Next) /\
     h_dev_ptrs_ (store_pkt w' (payload_ptr w' burst idx))
     = store_ptr (h_dev_ptrs_ w') (cur_batch_idx_ w') 0 (payload_ptr w' burst idx)).
Proof.
  intros Hrun.
  assert (Hloop : exists burst k w0,
             i = Some burst /\
             (k < Z.to_nat (adv_net_get_num_pkts burst))%nat /\
             mid_compute E w burst k = (w0, Next) /\
             batch_size_ w0 <= aggr_pkts_recv_ w0 /\
             launch_batch E w0 = (w', Return)).
  { unfold compute in Hrun. destruct i as [burst|]; [|discriminate].
    destruct (adv_net_get_q_id burst =? 0); [discriminate|].
    match type of Hrun with context [pkt_loop E ?n ?i ?b ?w0] =>
      destruct (pkt_loop E n i b w0) as [w1 [| |c]] eqn:Hl end; try discriminate.
    inversion Hrun; subst w1.
    apply pkt_loop_return in Hl as (k & w0 & Hk & Hpre & Hfull & Hl).
    by exists burst, k, w0. }
  destruct Hloop as (burst0 & k & w0 & Hi & Hk & Hmid & Hfull & Hl).
  apply launch_batch_return in Hl as [H4 Hw'].
  destruct (after_reclaim_frame E w0) as (_ & F2 & _ & _ & F5 & _ & F7 & F8 & _).
  destruct (after_reclaim_calls E w0) as (polls & Hc & Hp).
  rewrite Hw'. unfold num_concurrent, pending. simpl.
  split; [lia|]. split; [by eexists|]. split; [|split; [exact F5|split]].
  - exists burst0, k, w0. rewrite Hc, !launched_tables_app, (launched_tables_polls polls Hp).
    simpl. by rewrite !app_nil_r.
  - by rewrite F5.
  - intros HB burst idx. split; [|by rewrite F5].
    unfold loop_body. rewrite launch_if_full_below; [done|]. simpl. lia.
Qed.

(** A run of X8: batches of one packet, a device that reclaims nothing, a
    burst of six packets. *)
Lemma saturation_return_drops_the_full_table_witness :
  aggr_pkts_recv_
    (compute (env_busy 0) (initialize 1 9100 42) (Some (sample_burst 1 6))).1 = 0 /\
  h_dev_ptrs_
    (compute (env_busy 0) (initialize 1 9100 42) (Some (sample_burst 1 6))).1
  = [[1442]; [1142]; [1242]; [1342]].
Proof.
  destruct (saturation_return_drops_the_full_table (env_busy 0) (initialize 1 9100 42)
              (Some (sample_burst 1 6))
              (compute (env_busy 0) (initialize 1 9100 42) (Some (sample_burst 1 6))).1)
    as (_ & _ & _ & Ha & _).
  - vm_compute. reflexivity.
  - split; [exact Ha|]. vm_compute. reflexivity.
Defined.

(** ** Reclaiming twice *)

(** X9: on a device whose answers do not change between polls, a second
    reclaim pass right after the first removes nothing and polls at most the
    head of the tracker; and when every marker in the tracker is satisfied,
    one pass empties the tracker. *)
Theorem free_batch_queue_twice (E : Env) (w : Op) :
  steady E ->
  batch_q_ (free_batch_queue E (free_batch_queue E w)) = batch_q_ (free_batch_queue E w) /\
  (exists polls,
     calls (free_batch_queue E (free_batch_queue E w))
     = calls (free_batch_queue E w) ++ polls /\
     (length polls <= 1)%nat /\
     Forall (fun c => is_poll c = true) polls) /\
  ((forall b, In b (batch_q_ w) -> event_status E O (evt b) = cudaSuccess) ->
   batch_q_ (free_batch_queue E w) = []).
Proof.
  intros Hst.
  destruct (free_batch_queue_loop_spec E (batch_q_ w) (clock w))
    as (k & Hk & Heq & Hsat & Hstop).
  set (w1 := free_batch_queue E w).
  assert (Hq1 : batch_q_ w1 = drop k (batch_q_ w)).
  { subst w1. rewrite free_batch_queue_unfold, Heq. done. }
  destruct (free_batch_queue_loop_spec E (batch_q_ w1) (clock w1))
    as (k' & Hk' & Heq' & Hsat' & _).
  assert (Hk0 : k' = O).
  { destruct k' as [|k']; [done|]. exfalso.
    destruct (lookup_lt_is_Some_2 (batch_q_ w1) 0) as [b Hb]; [lia|].
    pose proof (Hsat' O b ltac:(lia) Hb) as Hs.
    rewrite Hq1, lookup_drop, Nat.add_0_r in Hb.
    apply (Hstop b Hb). by rewrite (Hst _ (clock w1 + 0)%nat). }
  subst k'. split; [|split].
  - rewrite (free_batch_queue_unfold E w1), Heq'. done.
  - rewrite (free_batch_queue_unfold E w1), Heq'. simpl. eexists. split; [done|].
    split.
    + rewrite length_imap, length_take. lia.
    + apply Forall_forall. intros c Hc.
      apply elem_of_lookup_imap in Hc as (i & b & -> & _). done.
  - intros Hall. rewrite Hq1.
    destruct (decide (k = length (batch_q_ w))) as [->|Hne]; [apply drop_all|].
    exfalso. destruct (lookup_lt_is_Some_2 (batch_q_ w) k) as [b Hb]; [lia|].
    apply (Hstop b Hb). rewrite (Hst _ O). apply Hall.
    apply list_elem_of_In. by eapply list_elem_of_lookup_2.
Qed.

(** A run of X9: the tracker after four packets with batches of one, on a
    device that has finished slot 0 only. *)
Lemma free_batch_queue_twice_witness :
  map evt (batch_q_ (free_batch_queue (env_slot0_done 0)
    (free_batch_queue (env_slot0_done 0)
       (compute (env_slot0_done 0) (initialize 1 9100 42) (Some (sample_burst 1 4))).1)))
  = [Event 1; Event 2].
Proof.
  rewrite (proj1 (free_batch_queue_twice (env_slot0_done 0)
                    (compute (env_slot0_done 0) (initialize 1 9100 42)
                             (Some (sample_burst 1 4))).1
                    (fun n m e => eq_refl))).
  vm_compute. reflexivity.
Defined.

(** ** The order of the records in the tracker *)

Lemma same_slot_same_launch (a i j : nat) :
  (i < 4)%nat -> (j < 4)%nat ->
  Z.of_nat (a + i) mod 4 = Z.of_nat (a + j) mod 4 -> i = j.
Proof. intros Hi Hj H. zify. Z.div_mod_to_equations. lia. Qed.

(** X10: while the process lives, the tracker is a FIFO of the most
    recent launches.  In every state reached from [initialize] the markers
    of the records in the tracker are, front first, the markers of the
    slots of the last launches in launch order, and no two records carry
    the marker of the same slot. *)
Theorem tracker_holds_latest_launches_in_order
  (E : Env) (batch_size max_packet_size header_size : Z)
  (inputs : list (option AdvNetBurstParams)) :
  (run E (initialize batch_size max_packet_size header_size) inputs).2 = true ->
  let w := (run E (initialize batch_size max_packet_size header_size) inputs).1 in
  map evt (batch_q_ w)
  = map events_ (drop (length (launched_slots (calls w)) - length (batch_q_ w))
                      (launched_slots (calls w))) /\
  (length (batch_q_ w) <= length (launched_slots (calls w)))%nat /\
  NoDup (map evt (batch_q_ w)).
Proof.
  intros Halive w.
  assert (Hring : ring w).
  { pose proof (ring_after_run_steps E inputs _
                  (ring_initialize batch_size max_packet_size header_size)) as H.
    unfold ring_after_run in H. rewrite Halive in H. exact H. }
  assert (Hdepth : (length (batch_q_ w) <= 4)%nat).
  { subst w. apply depth_invariant_run. simpl. lia. }
  destruct Hring as (Hs & _ & Hd & Hq).
  split; [exact Hq|]. split; [exact Hd|].
  rewrite Hq. unfold ring_slots in Hs. rewrite Hs, length_round_robin.
  set (L := length (launched_slots (calls w))) in *.
  set (d := length (batch_q_ w)) in *.
  apply NoDup_alt. intros i j x Hi Hj.
  rewrite map_is_fmap in Hi, Hj.
  apply list_lookup_fmap_Some in Hi as (a & -> & Ha).
  apply list_lookup_fmap_Some in Hj as (b & Hab & Hb).
  inversion Hab; subst b.
  rewrite lookup_drop in Ha, Hb.
  apply round_robin_lookup in Ha as [Hlt1 Hm1].
  apply round_robin_lookup in Hb as [Hlt2 Hm2].
  unfold num_concurrent in *.
  apply (same_slot_same_launch (L - d)); [lia|lia|congruence].
Qed.

(** A run of X10: four packets with batches of one, on a device that has
    finished slot 0 only. *)
Lemma tracker_holds_latest_launches_in_order_witness :
  NoDup (map evt (batch_q_
    (run (env_slot0_done 0) (initialize 1 9100 42) [Some (sample_burst 1 4)]).1)).
Proof.
  apply (tracker_holds_latest_launches_in_order (env_slot0_done 0) 1 9100 42
           [Some (sample_burst 1 4)] eq_refl).
Defined.

(** ** No allocation after [initialize] *)

Section RunEmits.

Context (E : Env) (P : list Call -> Prop).
Hypothesis P_nil : P [].
Hypothesis P_app : forall a b, P a -> P b -> P (a ++ b).
Hypothesis P_polls : forall cs, Forall (fun c => is_poll c = true) cs -> P cs.
Hypothesis P_log : forall m a, P [HOLOSCAN_LOG_ERROR m a].
Hypothesis P_last : forall r, P [cudaGetLastError r].
Hypothesis P_exit : forall c, P [exit c].
Hypothesis P_launch : forall w, P (launch_calls E w).

Lemma run_emits inputs w : emits P w (run E w inputs).1.
Proof.
  revert w. induction inputs as [|i rest IH]; intros w; [by apply emits_refl|].
  rewrite run_cons.
  pose proof (compute_emits E P P_nil P_app P_polls P_log P_last P_exit P_launch w i) as Hc.
  destruct (compute E w i) as [w1 o]. simpl in Hc.
  destruct o; try exact Hc; by eapply emits_trans; [exact P_app|exact Hc|apply IH].
Qed.

End RunEmits.

Lemma store_ptr_rows_any (n : nat) t slot idx p :
  Forall (fun r => length r = n) t ->
  Forall (fun r => length r = n) (store_ptr t slot idx p).
Proof.
  intros Ht. unfold store_ptr.
  destruct (0 <=? slot) eqn:Hs; simpl; [|done].
  destruct (0 <=? idx); [|done].
  destruct (decide (Z.to_nat slot < length t)%nat) as [Hlt|Hge].
  - destruct (lookup_lt_is_Some_2 t (Z.to_nat slot) Hlt) as [r Hr].
    apply Forall_insert; [done|]. rewrite length_insert.
    unfold table_of. rewrite Hs, Hr. simpl.
    exact (Forall_lookup_1 (fun r => length r = n) t (Z.to_nat slot) r Ht Hr).
  - rewrite list_insert_ge by lia. done.
Qed.

Lemma configured_launch E B mps hs w :
  configured B mps hs w -> configured B mps hs (launch_batch E w).1.
Proof.
  intros (H1 & H2 & H3 & H4 & H5). unfold configured.
  destruct (after_reclaim_frame E w) as (_ & _ & _ & _ & _ & F6 & F7 & F8 & F9).
  destruct (decide (length (batch_q_ (after_reclaim E w)) = 4%nat)) as [Hd|Hd].
  - rewrite launch_batch_saturated by done. simpl. by rewrite F6, F7, F8, F9.
  - destruct (launch_batch_launched E w Hd)
      as (_ & _ & _ & _ & _ & _ & G7 & _ & _ & G8 & G9 & G6).
    by rewrite G6, G7, G8, G9.
Qed.

(** X11: [compute] allocates nothing.  In every run from [initialize] the
    calls made after [initialize] contain no memory allocation and no
    creation of a stream or an event; the operator keeps its four pointer
    tables of [batch_size] entries each, and the batch size, the header size
    and the nominal payload size keep the values [initialize] gave them. *)
Theorem compute_allocates_nothing
  (E : Env) (batch_size max_packet_size header_size : Z)
  (inputs : list (option AdvNetBurstParams)) :
  let w0 := initialize batch_size max_packet_size header_size in
  let w := (run E w0 inputs).1 in
  (exists cs, calls w = calls w0 ++ cs /\
              Forall (fun c => is_allocation c = false) cs) /\
  configured batch_size max_packet_size header_size w.
Proof.
  intros w0 w. split.
  - apply (run_emits E (Forall (fun c => is_allocation c = false))).
    + constructor.
    + intros a b Ha Hb. by apply Forall_app.
    + intros cs Hcs. eapply Forall_impl; [exact Hcs|]. intros c Hc. by destruct c.
    + intros m a. by repeat constructor.
    + intros r. by repeat constructor.
    + intros c. by repeat constructor.
    + intros w1. unfold launch_calls.
      destruct (DEBUG_CUDA_TIMES E =? 1); by repeat constructor.
  - subst w. apply (run_invariant E
                      (configured batch_size max_packet_size header_size)); try done.
    + intros w1 (H1 & H2 & H3 & H4 & H5). unfold configured.
      destruct (free_batch_queue_frame E w1)
        as (_ & _ & _ & _ & _ & -> & -> & -> & _ & ->). done.
    + apply configured_launch.
    + intros w1 p (H1 & H2 & H3 & H4 & H5). unfold configured. simpl.
      rewrite store_ptr_length. repeat split; try done. by apply store_ptr_rows_any.
    + unfold configured. simpl. repeat split; try done.
      repeat constructor; apply length_replicate.
Qed.

(** ** The arguments of the kernel launches *)

(** Invariants that need not survive an arbitrary addition to the call
    log, only the log entries that [compute] itself adds. *)
Section InvariantLog.

Context (E : Env) (I : Op -> Prop).
Hypothesis I_free : forall w, I w -> I (free_batch_queue E w).
Hypothesis I_launch : forall w, I w -> I (launch_batch E w).1.
Hypothesis I_store : forall w p, I w -> I (store_pkt w p).
Hypothesis I_log : forall w m a, I w -> I (emit w [HOLOSCAN_LOG_ERROR m a]).
Hypothesis I_pkts : forall w n, I w -> I (set_ttl_pkts_recv_ w n).
Hypothesis I_bytes : forall w n, I w -> I (set_ttl_bytes_recv_ w n).



End InvariantLog.






(** ** The sizes that [initialize] computes *)

(** X13: the sizes of [initialize].  For parameters in the ranges of
    their types, the nominal payload size is [max_packet_size - header_size]
    when the header fits in the packet and wraps around to
    [max_packet_size - header_size + 65536] when it does not; each slot gets
    a pinned table of [batch_size] pointers and a device buffer whose
    requested size is the product of batch size and payload size in 32-bit
    arithmetic: the full product when it is below 2^32, less than the
    product otherwise. *)
Theorem initialize_sizes (B max_packet_size hs : Z) :
  0 <= B < 2 ^ 32 -> 0 <= max_packet_size < 2 ^ 16 -> 0 <= hs < 2 ^ 16 ->
  let w := initialize B max_packet_size hs in
  let nom := nom_payload_size_ w in
  0 <= nom < 2 ^ 16 /\
  (hs <= max_packet_size -> nom = max_packet_size - hs) /\
  (max_packet_size < hs -> nom = max_packet_size - hs + 2 ^ 16) /\
  (forall n, (n < 4)%nat ->
     In (cudaMallocHost (Z.of_nat n) B) (calls w) /\
     In (cudaMallocAsync (Z.of_nat n) (wrap_u32 (B * nom)) (streams_ (Z.of_nat n))) (calls w) /\
     h_dev_ptrs_ w !! n = Some (replicate (Z.to_nat B) 0)) /\
  (B * nom < 2 ^ 32 -> wrap_u32 (B * nom) = B * nom) /\
  (2 ^ 32 <= B * nom -> 0 <= wrap_u32 (B * nom) < B * nom).
Proof.
  intros HB Hm Hh w nom.
  assert (Hnom : nom = wrap_u16 (max_packet_size - hs)) by reflexivity.
  assert (Hr : 0 <= nom < 2 ^ 16).
  { rewrite Hnom. unfold wrap_u16. apply Z.mod_pos_bound. lia. }
  split; [exact Hr|]. split; [|split; [|split; [|split]]].
  - intros Hle. rewrite Hnom. unfold wrap_u16. apply Z.mod_small. lia.
  - intros Hlt. rewrite Hnom. unfold wrap_u16.
    symmetry. apply (Z.mod_unique _ _ (-1)); lia.
  - intros n Hn. fold nom.
    destruct n as [|[|[|[|n]]]]; try lia; simpl;
      (split; [tauto|split; [tauto|reflexivity]]).
  - intros Hlt. unfold wrap_u32. apply Z.mod_small. nia.
  - intros Hge. unfold wrap_u32.
    pose proof (Z.mod_pos_bound (B * nom) (2 ^ 32) ltac:(lia)). lia.
Qed.

(** A run of X13: the default parameters of [setup]. *)
Lemma initialize_sizes_witness :
  nom_payload_size_
    (initialize default_batch_size default_max_packet_size default_header_size) = 9058 /\
  wrap_u32 (default_batch_size * 9058) = 9058000.
Proof.
  pose proof (initialize_sizes default_batch_size default_max_packet_size
                default_header_size ltac:(by vm_compute) ltac:(by vm_compute)
                ltac:(by vm_compute)) as (_ & Hn & _ & _ & Hs & _).
  split.
  - rewrite Hn by (by vm_compute). reflexivity.
  - change 9058 with (nom_payload_size_
      (initialize default_batch_size default_max_packet_size default_header_size)).
    rewrite Hs by (by vm_compute). reflexivity.
Defined.

(** ** A data-queue burst without packets *)

(** X14: a burst on a data queue whose packet count is not positive goes
    through [compute] without a round of the packet loop: nothing is stored
    or launched and the fill count and the current slot stay, but the call
    completes, so the (possibly negative) count is added to
    [ttl_pkts_recv_] and the byte count of the burst to [ttl_bytes_recv_]. *)
Theorem data_burst_without_packets (E : Env) (w : Op) (burst : AdvNetBurstParams) :
  adv_net_get_q_id burst <> 0 ->
  adv_net_get_num_pkts burst <= 0 ->
  let r := compute E w (Some burst) in
  r.2 = Completed /\
  h_dev_ptrs_ r.1 = h_dev_ptrs_ w /\
  aggr_pkts_recv_ r.1 = aggr_pkts_recv_ w /\
  cur_batch_idx_ r.1 = cur_batch_idx_ w /\
  launched_tables (calls r.1) = launched_tables (calls w) /\
  (exists k, batch_q_ r.1 = drop k (batch_q_ w)) /\
  ttl_pkts_recv_ r.1 = wrap64 (ttl_pkts_recv_ w + adv_net_get_num_pkts burst) /\
  ttl_bytes_recv_ r.1 = wrap64 (ttl_bytes_recv_ w + adv_net_get_burst_tot_byte burst).
Proof.
  intros Hq Hn r. subst r. rewrite compute_data_burst by done.
  unfold mid_compute. replace (Z.to_nat (adv_net_get_num_pkts burst)) with O by lia.
  simpl. unfold counted. simpl.
  destruct (free_batch_queue_frame E w) as (_ & F2 & F3 & F4 & F5 & _ & F7 & _).
  rewrite F2, F3, F4, F5, F7, free_batch_queue_launched.
  repeat split; try done.
  rewrite free_batch_queue_unfold. simpl.
  destruct (free_batch_queue_loop_spec E (batch_q_ w) (clock w)) as (k & _ & -> & _).
  by exists k.
Qed.

(** A run of X14: an empty burst on queue 1 that claims 64 bytes. *)
Lemma data_burst_without_packets_witness :
  ttl_bytes_recv_
    (compute (env_ready 0) (initialize 2 9100 42)
       (Some {| hdr_q_id := 1; hdr_num_pkts := 0; hdr_tot_byte := 64;
                pkts := fun _ => 0 |})).1 = 64.
Proof.
  pose proof (data_burst_without_packets (env_ready 0) (initialize 2 9100 42)
                {| hdr_q_id := 1; hdr_num_pkts := 0; hdr_tot_byte := 64;
                   pkts := fun _ => 0 |}
                ltac:(by vm_compute) ltac:(by vm_compute))
    as (_ & _ & _ & _ & _ & _ & _ & Hb).
  rewrite Hb. reflexivity.
Defined.

(** ** The completion marker is never recorded *)

Lemma initialize_records_nothing B mps hs :
  Forall (fun c => is_event_record c = false) (calls (initialize B mps hs)).
Proof. unfold initialize. simpl. repeat constructor. Qed.

(** C2 fails on the code.  The record of the completion marker stands
    inside [#if DEBUG_CUDA_TIMES == 1], with the timing code.  In every
    other build no run from [initialize] makes a single [cudaEventRecord]
    call, so no completion marker is ever recorded: a launch is directly
    followed by [cudaGetLastError].  Yet the record pushed after the launch
    carries the completion marker of the launched slot, [free_batch_queue]
    polls the marker at the head of the tracker, and while the process
    lives the markers in the tracker are those of the latest launches. *)
Theorem completion_marker_never_recorded
  (E : Env) (batch_size max_packet_size header_size : Z)
  (inputs : list (option AdvNetBurstParams)) :
  DEBUG_CUDA_TIMES E <> 1 ->
  let r := run E (initialize batch_size max_packet_size header_size) inputs in
  Forall (fun c => is_event_record c = false) (calls r.1) /\
  (forall w1 : Op,
     length (batch_q_ (after_reclaim E w1)) <> 4%nat ->
     let wr := after_reclaim E w1 in
     exists e rest,
       calls (launch_batch E w1).1
       = calls wr
         ++ simple_packet_reorder
              (full_batch_data_d_ (cur_batch_idx_ wr))
              (Some (cur_batch_idx_ wr,
                     take (Z.to_nat (batch_size_ wr))
                          (table_of (h_dev_ptrs_ wr) (cur_batch_idx_ wr))))
              (nom_payload_size_ wr) (batch_size_ wr) (streams_ (cur_batch_idx_ wr))
            :: cudaGetLastError e :: rest /\
       batch_q_ (launch_batch E w1).1 = batch_q_ wr ++ [pushed_record w1] /\
       evt (pushed_record w1) = events_ (cur_batch_idx_ w1)) /\
  (forall (w1 : Op) b q,
     batch_q_ w1 = b :: q ->
     exists rest,
       calls (free_batch_queue E w1)
       = calls w1 ++ cudaEventQuery (evt b) (event_status E (clock w1) (evt b)) :: rest) /\
  (r.2 = true ->
   map evt (batch_q_ r.1)
   = map events_ (drop (length (launched_slots (calls r.1)) - length (batch_q_ r.1))
                       (launched_slots (calls r.1)))).
Proof.
  intros Hd r. split; [|split; [|split]].
  - destruct (run_emits E (Forall (fun c => is_event_record c = false)))
      with (inputs := inputs) (w := initialize batch_size max_packet_size header_size)
      as (cs & Hcs & Hno).
    + constructor.
    + intros a b Ha Hb. by apply Forall_app.
    + intros cs Hcs. eapply Forall_impl; [exact Hcs|]. intros c Hc. by destruct c.
    + intros m a. by repeat constructor.
    + intros e. by repeat constructor.
    + intros c. by repeat constructor.
    + intros w0. rewrite launch_calls_release by done. by repeat constructor.
    + subst r. rewrite Hcs. apply Forall_app. split; [|exact Hno].
      apply initialize_records_nothing.
  - intros w1 H4 wr.
    destruct (launch_batch_launched E w1 H4) as (_ & Hc & Hq & _).
    fold wr in Hc, Hq. rewrite launch_calls_release in Hc by done.
    eexists _, _. split; [exact Hc|]. split; [exact Hq|reflexivity].
  - intros w1 b q Hq. rewrite free_batch_queue_unfold. simpl.
    destruct (free_batch_queue_loop_spec E (batch_q_ w1) (clock w1)) as (k & _ & -> & _).
    rewrite Hq. simpl. unfold poll_of at 1. rewrite Nat.add_0_r. by eexists.
  - intros Halive.
    pose proof (ring_after_run_steps E inputs _
                  (ring_initialize batch_size max_packet_size header_size)) as H.
    unfold ring_after_run in H. fold r in H. rewrite Halive in H. apply H.
Qed.

(** The failing input of C2 in the build as the header stands: batches of
    one packet, a burst of two packets, then a call without a burst.  The
    second packet launches slot 0, [cudaGetLastError] follows at once, and
    the next reclaim pass polls the marker of slot 0, which was never
    recorded. *)
Lemma completion_marker_never_recorded_witness :
  let r := run (env_ready 0) (initialize 1 9100 42) [Some (sample_burst 1 2); None] in
  drop (length (calls (initialize 1 9100 42))) (calls r.1)
  = [simple_packet_reorder (Some 0) (Some (0, [1042])) 9058 1 (Stream 0);
     cudaGetLastError cudaSuccess;
     cudaEventQuery (Event 0) cudaSuccess;
     HOLOSCAN_LOG_ERROR no_burst_msg []] /\
  Forall (fun c => is_event_record c = false) (calls r.1).
Proof.
  split.
  - vm_compute. reflexivity.
  - apply (completion_marker_never_recorded (env_ready 0) 1 9100 42
             [Some (sample_burst 1 2); None]).
    vm_compute. discriminate.
Defined.

(** * holoviz_srgb.cpp: properties of [main] *)

Lemma unhandled_cons a pre :
  unhandled (a :: pre) =
  (if is_unhandled a then [log_unhandled_option (opt_code a)] else []) ++ unhandled pre.
Proof. unfold unhandled. simpl. destruct (is_unhandled a); reflexivity. Qed.

Lemma count_after_cons stoi a pre count :
  count_after stoi (a :: pre) count =
  count_after stoi pre
    (if is_count a then default count (stoi (default EmptyString (optarg a)))
     else count).
Proof. reflexivity. Qed.

Lemma option_loop_app stoi argv0 pre rest count :
  forallb (passes stoi) pre = true ->
  option_loop stoi argv0 (pre ++ rest) count =
  let '(ev, e) := option_loop stoi argv0 rest (count_after stoi pre count) in
  (unhandled pre ++ ev, e).
Proof.
  revert count. induction pre as [|a pre IH]; intros count Hp.
  - simpl. by destruct (option_loop stoi argv0 rest count).
  - simpl in Hp. apply andb_prop in Hp as [Ha Hp].
    unfold passes in Ha.
    apply andb_prop in Ha as [Ha Hc]. apply andb_prop in Ha as [H1 Hh].
    apply negb_true_iff in H1, Hh.
    rewrite unhandled_cons, count_after_cons.
    cbn [app option_loop]. rewrite H1, Hh.
    unfold is_count, is_unhandled. rewrite Hh. cbn [negb andb].
    destruct (opt_code a =? code_c) eqn:Ec.
    + simpl in Hc. apply bool_decide_eq_true in Hc as [v Hv].
      rewrite Hv. simpl. rewrite IH by exact Hp. reflexivity.
    + cbn [negb andb]. destruct (opt_code a =? code_unknown) eqn:Eu.
      * simpl. rewrite IH by exact Hp. reflexivity.
      * simpl. rewrite IH by exact Hp.
        by destruct (option_loop stoi argv0 rest (count_after stoi pre count)).
Qed.

Lemma count_after_no_count stoi pre count :
  forallb (fun a => negb (is_count a)) pre = true ->
  count_after stoi pre count = count.
Proof.
  revert count. induction pre as [|a pre IH]; intros count Hp; [done|].
  simpl in Hp. apply andb_prop in Hp as [Ha Hp]. apply negb_true_iff in Ha.
  unfold count_after. simpl. rewrite Ha. by apply IH.
Qed.

Lemma count_after_app stoi p1 p2 count :
  count_after stoi (p1 ++ p2) count = count_after stoi p2 (count_after stoi p1 count).
Proof. unfold count_after. by rewrite fold_left_app. Qed.

Lemma unhandled_app p1 p2 : unhandled (p1 ++ p2) = unhandled p1 ++ unhandled p2.
Proof.
  induction p1 as [|a p1 IH]; [done|].
  simpl. by rewrite !unhandled_cons, IH, app_assoc.
Qed.

(** X15: which count the application runs with.  When no answer of
    [getopt_long] is the help option and every count argument converts, [main]
    runs the application exactly once, as its last action but the final log
    line, and returns 0; the count is the converted argument of the last
    count option, whatever earlier count options said, and [-1] when there is
    no count option. *)
Theorem last_count_option_wins stoi argv0 (pre : list GetoptResult) :
  forallb (passes stoi) pre = true ->
  (forallb (fun a => negb (is_count a)) pre = true ->
   main stoi argv0 pre = (unhandled pre ++ [app_run (-1); log_finished], main_returns 0)) /\
  (forall p1 a p2 v,
     pre = p1 ++ a :: p2 -> is_count a = true ->
     stoi (default EmptyString (optarg a)) = Some v ->
     forallb (fun a => negb (is_count a)) p2 = true ->
     main stoi argv0 pre = (unhandled pre ++ [app_run v; log_finished], main_returns 0)).
Proof.
  intros Hp.
  assert (Hm : main stoi argv0 pre =
               (unhandled pre ++ [app_run (count_after stoi pre (-1)); log_finished],
                main_returns 0)).
  { unfold main. rewrite <- (app_nil_r pre) at 1.
    rewrite option_loop_app by exact Hp. simpl. by rewrite app_nil_r. }
  split.
  - intros Hn. rewrite Hm. by rewrite count_after_no_count.
  - intros p1 a p2 v -> Ha Hv Hn. rewrite Hm.
    rewrite count_after_app, count_after_cons, Ha, Hv. simpl.
    by rewrite count_after_no_count.
Qed.

(** A run of X15: [-c 5 -c 12] runs the application 12 times. *)
Lemma last_count_option_wins_witness :
  main sample_stoi "holoviz_srgb"
    [short_option code_c (Some "5"%string); short_option code_c (Some "12"%string)]
  = ([app_run 12; log_finished], main_returns 0).
Proof.
  pose proof (last_count_option_wins sample_stoi "holoviz_srgb"
                [short_option code_c (Some "5"%string);
                 short_option code_c (Some "12"%string)]
                ltac:(by vm_compute)) as [_ H].
  exact (H [short_option code_c (Some "5"%string)]
           (short_option code_c (Some "12"%string)) [] 12
           eq_refl eq_refl eq_refl eq_refl).
Defined.

(** X16: the two early ends of [main].  After answers that all pass, a help
    option prints the usage text and returns 0, and a count option whose
    argument [stoi] rejects ends [main] by the exception; in both cases the
    application is never run and the answers behind the option are not
    looked at.  A count option with a null [optarg] hands [stoi] the empty
    string. *)
Theorem help_or_bad_count_prevents_the_run stoi argv0
  (pre : list GetoptResult) (a : GetoptResult) (post : list GetoptResult) :
  forallb (passes stoi) pre = true ->
  (opt_code a = code_h ->
   main stoi argv0 (pre ++ a :: post) =
   (unhandled pre ++ [print_usage argv0], main_returns 0)) /\
  (opt_code a = code_c -> stoi (default EmptyString (optarg a)) = None ->
   main stoi argv0 (pre ++ a :: post) = (unhandled pre, main_throws)) /\
  (opt_code a = code_c -> optarg a = None -> stoi EmptyString = None ->
   main stoi argv0 (pre ++ a :: post) = (unhandled pre, main_throws)).
Proof.
  intros Hp.
  assert (Hbad : opt_code a = code_c -> stoi (default EmptyString (optarg a)) = None ->
                 main stoi argv0 (pre ++ a :: post) = (unhandled pre, main_throws)).
  { intros Hc Hs. unfold main. rewrite option_loop_app by exact Hp.
    simpl. rewrite Hc, Hs. simpl. by rewrite app_nil_r. }
  split; [|split; [exact Hbad|]].
  - intros Hh. unfold main. rewrite option_loop_app by exact Hp.
    simpl. rewrite Hh. reflexivity.
  - intros Hc Ho Hs. apply Hbad; [exact Hc|]. by rewrite Ho.
Qed.

(** A run of X16: [-c 5 --count -h]; the count option without an argument
    ends [main] before the help option is seen. *)
Lemma help_or_bad_count_prevents_the_run_witness :
  main sample_stoi "holoviz_srgb"
    [short_option code_c (Some "5"%string); short_option code_c None;
     short_option code_h None]
  = ([], main_throws).
Proof.
  pose proof (help_or_bad_count_prevents_the_run sample_stoi "holoviz_srgb"
                [short_option code_c (Some "5"%string)]
                (short_option code_c None) [short_option code_h None]
                ltac:(by vm_compute)) as (_ & _ & H).
  exact (H eq_refl eq_refl eq_refl).
Defined.
